(** * Verification of the Ali (DashScope) relay adapter

    Shallow embedding of [controller/relay-ali.go]: the chat request
    translator, the embedding translator, the unary and streamed chat
    handlers and the text-to-speech relay, followed by the properties that
    the design document states about them. *)

From Stdlib Require Import List String Ascii ZArith Lia Bool Arith PeanoNat.
From Stdlib Require Import Strings.Byte Floats Permutation.
Import ListNotations.

Local Open Scope string_scope.
Local Open Scope list_scope.

(* ===================================================================== *)
(** ** Go primitives used by the adapter *)
(* ===================================================================== *)

Module Go.

(** Go strings are immutable byte sequences; [string] (a list of 8-bit
    [ascii]) is the same data. *)

(** [s[i:]] for [i <= len(s)]. *)
Definition slice_from (s : string) (i : nat) : string :=
  substring i (String.length s - i) s.

(** [strings.HasPrefix]:
    [len(s) >= len(prefix) && s[0:len(prefix)] == prefix]. *)
Definition HasPrefix (s prefix : string) : bool :=
  (String.length prefix <=? String.length s)%nat
  && (substring 0 (String.length prefix) s =? prefix)%string.

(** [strings.TrimPrefix]: [s] without the leading [prefix]; [s] itself
    when it does not start with [prefix]. *)
Definition TrimPrefix (s prefix : string) : string :=
  if HasPrefix s prefix then slice_from s (String.length prefix) else s.

(** Go's [int] on the 64-bit targets the gateway is built for: a value in
    [-2^63, 2^63), with [+] wrapping around. *)
Definition int := Z.

Definition wrap (z : Z) : int :=
  ((z + 2 ^ 63) mod 2 ^ 64 - 2 ^ 63)%Z.

Definition add (a b : int) : int := wrap (a + b).

Definition in_range (z : Z) : Prop := (- 2 ^ 63 <= z < 2 ^ 63)%Z.

(** [error] values: the sentinel [io.EOF], compared by identity in the
    source, and every other error with its message. *)
Inductive error : Type :=
| io_EOF
| other_error (msg : string).

Definition is_EOF (e : error) : bool :=
  match e with io_EOF => true | other_error _ => false end.

(** [http.StatusInternalServerError]. *)
Definition StatusInternalServerError : int := 500%Z.

End Go.

(* ===================================================================== *)
(** ** Wire types *)
(* ===================================================================== *)

(** The canonical [Message]: its role and the text its [StringContent()]
    method returns. *)
Record Message := mkMessage {
  Role : string;
  StringContent : string
}.

(** The fields of [GeneralOpenAIRequest] that the chat translator reads. *)
Record GeneralOpenAIRequest := mkGeneralOpenAIRequest {
  Model : string;
  Messages : list Message
}.

Record AliMessage := mkAliMessage {
  User : string;
  Bot : string
}.

Record AliInput := mkAliInput {
  Prompt : string;
  History : list AliMessage
}.

(** [AliParameters]; the translator leaves it at its zero value. *)
Record AliParameters := mkAliParameters {
  TopP : float;
  TopK : Go.int;
  Seed : N;
  EnableSearch : bool
}.

Definition zeroParameters : AliParameters :=
  mkAliParameters 0%float 0%Z 0%N false.

Module AliChatRequest.
Record t := mk {
  Model : string;
  Input : AliInput;
  Parameters : AliParameters
}.
End AliChatRequest.

(* ===================================================================== *)
(** ** Chat request translator: [requestOpenAI2Ali] *)
(* ===================================================================== *)

Definition zeroMessage : Message := mkMessage "" "".

(** The [for i := 0; i < len(request.Messages); i++] loop, one iteration per
    unit of [fuel]; the state is the loop index, the prompt and the history
    built so far.  [continue] and the closing [i++] advance by one, the
    pairing branch advances by two, [break] leaves the loop. *)
Fixpoint requestLoop (fuel : nat) (msgs : list Message) (i : nat)
    (prompt : string) (messages : list AliMessage) : string * list AliMessage :=
  match fuel with
  | O => (prompt, messages)
  | S fuel' =>
      if (i <? List.length msgs)%nat then
        let message := nth i msgs zeroMessage in
        if (Role message =? "system")%string then
          requestLoop fuel' msgs (i + 1) prompt
            (messages ++ [mkAliMessage (StringContent message) "Okay"])
        else if (i =? List.length msgs - 1)%nat then
          (StringContent message, messages)
        else
          requestLoop fuel' msgs (i + 1 + 1) prompt
            (messages ++ [mkAliMessage (StringContent message)
                            (StringContent (nth (i + 1) msgs zeroMessage))])
      else (prompt, messages)
  end.

(** Every iteration advances the index, so [len(request.Messages)]
    iterations always reach the loop exit. *)
Definition requestOpenAI2Ali (request : GeneralOpenAIRequest) : AliChatRequest.t :=
  let '(prompt, messages) :=
    requestLoop (List.length (Messages request)) (Messages request) 0 "" [] in
  AliChatRequest.mk (Model request) (mkAliInput prompt messages) zeroParameters.

(** The same walk read off the remaining suffix of the sequence: the prompt
    it sets (if any) and the pairs it appends. *)
Fixpoint walk (msgs : list Message) : option string * list AliMessage :=
  match msgs with
  | [] => (None, [])
  | m :: rest =>
      if (Role m =? "system")%string then
        let '(p, h) := walk rest in (p, mkAliMessage (StringContent m) "Okay" :: h)
      else
        match rest with
        | [] => (Some (StringContent m), [])
        | m' :: rest' =>
            let '(p, h) := walk rest' in
            (p, mkAliMessage (StringContent m) (StringContent m') :: h)
        end
  end.

(** Loop heads: the values the loop index [i] takes when the loop condition
    is evaluated. *)
Inductive visited (msgs : list Message) : nat -> Prop :=
| visited_start : visited msgs 0
| visited_system i m :
    visited msgs i -> nth_error msgs i = Some m ->
    Role m = "system" -> visited msgs (i + 1)
| visited_pair i m :
    visited msgs i -> nth_error msgs i = Some m ->
    Role m <> "system" -> i + 1 < List.length msgs -> visited msgs (i + 2).

Definition flatten (h : list AliMessage) : list string :=
  flat_map (fun p => [User p; Bot p]) h.

(** The prompt the translator returns: the one the loop set, else the
    initial empty string. *)
Definition prompt_of (p : option string) : string :=
  match p with Some c => c | None => "" end.

(** The synthetic pair a [system] message becomes. *)
Definition okay (m : Message) : AliMessage :=
  mkAliMessage (StringContent m) "Okay".

Definition no_system (msgs : list Message) : Prop :=
  Forall (fun m => Role m <> "system") msgs.


(* ===================================================================== *)
(** ** Vendor and canonical reply types *)
(* ===================================================================== *)

(** Each Go struct is a record in a module of its own name, so that fields
    keep their source names ([AliError.Code], [OpenAIError.Code], ...). *)

Module AliError.
Record t := mk { Code : string; Message : string; RequestId : string }.
End AliError.

Module AliUsage.
Record t := mk { InputTokens : Go.int; OutputTokens : Go.int; TotalTokens : Go.int }.
End AliUsage.

Module AliOutput.
Record t := mk { Text : string; FinishReason : string }.
End AliOutput.

(** [AliChatResponse] embeds [AliError]: [aliResponse.Code] in the source is
    [AliError.Code (AliChatResponse.Error aliResponse)] here. *)
Module AliChatResponse.
Record t := mk { Output : AliOutput.t; Usage : AliUsage.t; Error : AliError.t }.
End AliChatResponse.

Module AliEmbedding.
Record t := mk { Embedding : list float; TextIndex : Go.int }.
End AliEmbedding.

(** [Output.Embeddings] is the one field of the anonymous [Output] struct. *)
Module AliEmbeddingResponse.
Record t := mk {
  Embeddings : list AliEmbedding.t;
  Usage : AliUsage.t;
  Error : AliError.t
}.
End AliEmbeddingResponse.

(** The fields of [AliWSSMessage] that the relay reads back:
    [Header.Event] and [Payload.Usage.Characters]; [Header.TaskID] is kept
    for the frames it identifies. *)
Module AliWSSMessage.
Record t := mk { TaskID : string; Event : string; Characters : Go.int }.
Definition zero : t := mk "" "" 0%Z.
End AliWSSMessage.

(** The canonical types below are declared elsewhere in package
    [controller]; their fields are the ones this file assigns. *)

Module Usage.
Record t := mk { PromptTokens : Go.int; CompletionTokens : Go.int; TotalTokens : Go.int }.
Definition zero : t := mk 0%Z 0%Z 0%Z.
End Usage.

Module OpenAIError.
Record t := mk { Message : string; Type_ : string; Param : string; Code : string }.
End OpenAIError.

Module OpenAIErrorWithStatusCode.
Record t := mk { OpenAIError : OpenAIError.t; StatusCode : Go.int }.
End OpenAIErrorWithStatusCode.

Module OpenAIEmbeddingResponseItem.
Record t := mk { Object : string; Index : Go.int; Embedding : list float }.
End OpenAIEmbeddingResponseItem.

Module OpenAIEmbeddingResponse.
Record t := mk {
  Object : string;
  Data : list OpenAIEmbeddingResponseItem.t;
  Model : string;
  Usage : Usage.t
}.
End OpenAIEmbeddingResponse.

Module OpenAITextResponseChoice.
Record t := mk { Index : Go.int; Message : Message; FinishReason : string }.
End OpenAITextResponseChoice.

Module OpenAITextResponse.
Record t := mk {
  Id : string;
  Object : string;
  Created : Go.int;
  Choices : list OpenAITextResponseChoice.t;
  Usage : Usage.t
}.
End OpenAITextResponse.

(** [FinishReason] is a [*string]: [None] is the nil pointer, which the
    [omitempty] tag leaves out of the JSON. *)
Module ChatCompletionsStreamResponseChoice.
Record t := mk { DeltaContent : string; FinishReason : option string }.
Definition zero : t := mk "" None.
End ChatCompletionsStreamResponseChoice.

Module ChatCompletionsStreamResponse.
Record t := mk {
  Id : string;
  Object : string;
  Created : Go.int;
  Model : string;
  Choices : list ChatCompletionsStreamResponseChoice.t
}.
End ChatCompletionsStreamResponse.

(* ===================================================================== *)
(** ** Embedding translator: [embeddingResponseAli2OpenAI] *)
(* ===================================================================== *)

Definition embeddingItem (item : AliEmbedding.t) : OpenAIEmbeddingResponseItem.t :=
  OpenAIEmbeddingResponseItem.mk "embedding"
    (AliEmbedding.TextIndex item) (AliEmbedding.Embedding item).

(** [for _, item := range ... { Data = append(Data, ...) }]. *)
Definition embeddingResponseAli2OpenAI (response : AliEmbeddingResponse.t)
    : OpenAIEmbeddingResponse.t :=
  OpenAIEmbeddingResponse.mk "list"
    (fold_left (fun data item => data ++ [embeddingItem item])
       (AliEmbeddingResponse.Embeddings response) [])
    "text-embedding-v1"
    (Usage.mk 0%Z 0%Z (AliUsage.TotalTokens (AliEmbeddingResponse.Usage response))).

(* ===================================================================== *)
(** ** Chat reply translators *)
(* ===================================================================== *)

(** [responseAli2OpenAI]; [created] is the reading of
    [common.GetTimestamp()]. *)
Definition responseAli2OpenAI (created : Go.int) (response : AliChatResponse.t)
    : OpenAITextResponse.t :=
  let choice :=
    OpenAITextResponseChoice.mk 0%Z
      (mkMessage "assistant" (AliOutput.Text (AliChatResponse.Output response)))
      (AliOutput.FinishReason (AliChatResponse.Output response)) in
  OpenAITextResponse.mk
    (AliError.RequestId (AliChatResponse.Error response))
    "chat.completion"
    created
    [choice]
    (Usage.mk
       (AliUsage.InputTokens (AliChatResponse.Usage response))
       (AliUsage.OutputTokens (AliChatResponse.Usage response))
       (Go.add (AliUsage.InputTokens (AliChatResponse.Usage response))
               (AliUsage.OutputTokens (AliChatResponse.Usage response)))).

(** [streamResponseAli2OpenAI]. *)
Definition streamResponseAli2OpenAI (created : Go.int) (aliResponse : AliChatResponse.t)
    : ChatCompletionsStreamResponse.t :=
  let choice :=
    ChatCompletionsStreamResponseChoice.mk
      (AliOutput.Text (AliChatResponse.Output aliResponse))
      (if negb (AliOutput.FinishReason (AliChatResponse.Output aliResponse) =? "null")%string
       then Some (AliOutput.FinishReason (AliChatResponse.Output aliResponse))
       else None) in
  ChatCompletionsStreamResponse.mk
    (AliError.RequestId (AliChatResponse.Error aliResponse))
    "chat.completion.chunk"
    created
    "ernie-bot"
    [choice].

(* ===================================================================== *)
(** ** The environment of the handlers *)
(* ===================================================================== *)

(** A Go [(value, error)] return. *)
Inductive result (A : Type) : Type :=
| Ok (a : A)
| Failed (e : Go.error).
Arguments Ok {A} a.
Arguments Failed {A} e.

(** The vendor's [*http.Response]: its status code, what [io.ReadAll] on
    the body yields, and what [Body.Close()] returns. *)
Module Response.
Record t := mk {
  StatusCode : Go.int;
  Body : result string;
  Close : option Go.error
}.
End Response.

(** One event handed to [c.Render]: a stream chunk, sent as
    [data: <json of the chunk>], or the terminal sentinel. *)
Inductive StreamEvent : Type :=
| ChunkEvent (response : ChatCompletionsStreamResponse.t)
| DoneEvent.

(** The client side of a [*gin.Context], as a log of what the handler
    itself asks of it: the response headers it sets, the status it passes
    to [WriteHeader] ([None] while it has passed none), the byte slices
    accepted by its calls of [c.Writer.Write] (one entry per call), the
    events it hands to [c.Render], and when the client connection breaks:
    [Failure = Some (n, e)] lets [n] more writes through and fails every
    later one with [e].  What gin does underneath (committing the status
    line at the first write, serialising a rendered event onto the same
    connection) is not part of the log. *)
Module Context.
Record t := mk {
  Header : list (string * string);
  Status : option Go.int;
  Written : list (list byte);
  Rendered : list StreamEvent;
  Failure : option (nat * Go.error)
}.

Definition HeaderSet (key value : string) (c : t) : t :=
  mk ((key, value) :: filter (fun kv => negb (fst kv =? key)%string) (Header c))
     (Status c) (Written c) (Rendered c) (Failure c).

Definition WriteHeader (code : Go.int) (c : t) : t :=
  mk (Header c) (Some code) (Written c) (Rendered c) (Failure c).

Definition Write (p : list byte) (c : t) : t * option Go.error :=
  match Failure c with
  | Some (O, e) => (c, Some e)
  | Some (S n, e) =>
      (mk (Header c) (Status c) (Written c ++ [p]) (Rendered c) (Some (n, e)), None)
  | None =>
      (mk (Header c) (Status c) (Written c ++ [p]) (Rendered c) None, None)
  end.

Definition Render (e : StreamEvent) (c : t) : t :=
  mk (Header c) (Status c) (Written c) (Rendered c ++ [e]) (Failure c).
End Context.

(** What [conn.ReadMessage()] returns. *)
Inductive ReadResult : Type :=
| ReadMsg (messageType : Go.int) (p : list byte)
| ReadErr (err : Go.error).

(** The vendor web socket: the outcome of dialling, of [WriteJSON], and the
    successive results of [ReadMessage]. *)
Module Conn.
Record t := mk {
  DialErr : option Go.error;
  WriteJSONErr : option Go.error;
  Reads : list ReadResult
}.
End Conn.

(** [websocket.TextMessage] and [websocket.BinaryMessage]. *)
Definition TextMessage : Go.int := 1%Z.
Definition BinaryMessage : Go.int := 2%Z.

(** What a handler returns: a pair of pointers, to an
    [OpenAIErrorWithStatusCode] and to a [Usage]; [None] is nil. *)
Definition HandlerResult : Type :=
  (option OpenAIErrorWithStatusCode.t * option Usage.t)%type.

(** The state the streaming callback closes over. *)
Record StreamState := mkStreamState {
  usage : Usage.t;
  lastResponseText : string
}.

(** A payload received on [dataChan], with the clock reading when the
    callback handles it. *)
Record Received := mkReceived {
  Now : Go.int;
  Payload : string
}.

Definition chunkSize : nat := 1024.

(* ===================================================================== *)
(** ** Handlers *)
(* ===================================================================== *)

Section Handlers.

(** Helpers of package [controller] and of [encoding/json] that this file
    calls.  [json.Marshal] cannot fail on the reply structs (strings,
    integers and slices of such), so it is a function and the
    [marshal_response_body_failed] branches are dead.  [json.Unmarshal] of an
    [AliWSSMessage] returns the message as far as it was filled in, with or
    without an error. *)
Variable errorWrapper : Go.error -> string -> Go.int -> OpenAIErrorWithStatusCode.t.
Variable setEventStreamHeaders : Context.t -> Context.t.
Variable Unmarshal_AliChatResponse : string -> result AliChatResponse.t.
Variable Unmarshal_AliWSSMessage : list byte -> AliWSSMessage.t * option Go.error.
Variable Marshal_OpenAITextResponse : OpenAITextResponse.t -> list byte.
Variable Marshal_ChatCompletionsStreamResponse : ChatCompletionsStreamResponse.t -> string.

(** The text of an event on the wire. *)
Definition Data (e : StreamEvent) : string :=
  match e with
  | ChunkEvent response => "data: " ++ Marshal_ChatCompletionsStreamResponse response
  | DoneEvent => "data: [DONE]"
  end.

(** The error a vendor-reported fault becomes. *)
Definition vendorError (e : AliError.t) (statusCode : Go.int)
    : OpenAIErrorWithStatusCode.t :=
  OpenAIErrorWithStatusCode.mk
    (OpenAIError.mk (AliError.Message e) (AliError.Code e)
                    (AliError.RequestId e) (AliError.Code e))
    statusCode.

(** [aliHandler]. *)
Definition aliHandler (created : Go.int) (resp : Response.t) (c : Context.t)
    : HandlerResult * Context.t :=
  match Response.Body resp with
  | Failed err =>
      ((Some (errorWrapper err "read_response_body_failed"
                Go.StatusInternalServerError), None), c)
  | Ok responseBody =>
      match Response.Close resp with
      | Some err =>
          ((Some (errorWrapper err "close_response_body_failed"
                    Go.StatusInternalServerError), None), c)
      | None =>
          match Unmarshal_AliChatResponse responseBody with
          | Failed err =>
              ((Some (errorWrapper err "unmarshal_response_body_failed"
                        Go.StatusInternalServerError), None), c)
          | Ok aliResponse =>
              if negb (AliError.Code (AliChatResponse.Error aliResponse) =? "")%string
              then
                ((Some (vendorError (AliChatResponse.Error aliResponse)
                          (Response.StatusCode resp)), None), c)
              else
                let fullTextResponse := responseAli2OpenAI created aliResponse in
                let jsonResponse := Marshal_OpenAITextResponse fullTextResponse in
                let c1 := Context.HeaderSet "Content-Type" "application/json" c in
                let c2 := Context.WriteHeader (Response.StatusCode resp) c1 in
                let '(c3, _) := Context.Write jsonResponse c2 in
                ((None, Some (OpenAITextResponse.Usage fullTextResponse)), c3)
          end
      end
  end.

(** [response.Choices[0].Delta.Content = content]. *)
Definition setDeltaContent (content : string)
    (response : ChatCompletionsStreamResponse.t) : ChatCompletionsStreamResponse.t :=
  ChatCompletionsStreamResponse.mk
    (ChatCompletionsStreamResponse.Id response)
    (ChatCompletionsStreamResponse.Object response)
    (ChatCompletionsStreamResponse.Created response)
    (ChatCompletionsStreamResponse.Model response)
    (match ChatCompletionsStreamResponse.Choices response with
     | [] => []
     | choice :: rest =>
         ChatCompletionsStreamResponseChoice.mk content
           (ChatCompletionsStreamResponseChoice.FinishReason choice) :: rest
     end).

Definition deltaContent (response : ChatCompletionsStreamResponse.t) : string :=
  ChatCompletionsStreamResponseChoice.DeltaContent
    (hd ChatCompletionsStreamResponseChoice.zero
        (ChatCompletionsStreamResponse.Choices response)).

(** The usage update of the callback. *)
Definition updateUsage (u : AliUsage.t) (acc : Usage.t) : Usage.t :=
  if negb (AliUsage.OutputTokens u =? 0)%Z
  then Usage.mk (AliUsage.InputTokens u) (AliUsage.OutputTokens u)
                (Go.add (AliUsage.InputTokens u) (AliUsage.OutputTokens u))
  else acc.

(** The [case data := <-dataChan] arm of the callback given to [c.Stream];
    it always returns [true]. *)
Definition onData (st : StreamState * Context.t) (frame : Received)
    : StreamState * Context.t :=
  let '(s, c) := st in
  match Unmarshal_AliChatResponse (Payload frame) with
  | Failed _ => (s, c)
  | Ok aliResponse =>
      let usage' := updateUsage (AliChatResponse.Usage aliResponse) (usage s) in
      let response := streamResponseAli2OpenAI (Now frame) aliResponse in
      let response' :=
        setDeltaContent
          (Go.TrimPrefix (deltaContent response) (lastResponseText s)) response in
      (mkStreamState usage' (AliOutput.Text (AliChatResponse.Output aliResponse)),
       Context.Render (ChunkEvent response') c)
  end.

(** The [case <-stopChan] arm; it returns [false], which ends [c.Stream]. *)
Definition onStop (st : StreamState * Context.t) : StreamState * Context.t :=
  let '(s, c) := st in (s, Context.Render DoneEvent c).

(** [aliStreamHandler].  [frames] are the payloads the scanning goroutine
    hands over on the unbuffered [dataChan], in the order it found them; it
    then signals [stopChan] once, so the callback runs its data arm once per
    payload and its stop arm last. *)
Definition aliStreamHandler (resp : Response.t) (frames : list Received)
    (c : Context.t) : HandlerResult * Context.t :=
  let c0 := setEventStreamHeaders c in
  let '(s, c1) :=
    onStop (fold_left onData frames (mkStreamState Usage.zero "", c0)) in
  match Response.Close resp with
  | Some err =>
      ((Some (errorWrapper err "close_response_body_failed"
                Go.StatusInternalServerError), None), c1)
  | None => ((None, Some (usage s)), c1)
  end.

(** The chunking loop
    [for i := 0; i < len(audioData); i += chunkSize], one iteration per unit
    of [fuel]; a failed write leaves it with the error. *)
Fixpoint writeChunks (fuel : nat) (audioData : list byte) (i : nat)
    (c : Context.t) : Context.t * option Go.error :=
  match fuel with
  | O => (c, None)
  | S fuel' =>
      if (i <? List.length audioData)%nat then
        let end_ := if (List.length audioData <? i + chunkSize)%nat
                    then List.length audioData else i + chunkSize in
        let chunk := firstn (end_ - i) (skipn i audioData) in
        match Context.Write chunk c with
        | (c', Some writeErr) => (c', Some writeErr)
        | (c', None) => writeChunks fuel' audioData (i + chunkSize) c'
        end
      else (c, None)
  end.

(** Every iteration advances [i] by [chunkSize], so [len(audioData)]
    iterations reach the loop exit. *)
Definition writeAudio (audioData : list byte) (c : Context.t)
    : Context.t * option Go.error :=
  writeChunks (List.length audioData) audioData 0 c.

(** The read loop of [aliTTSHandler] over the successive results of
    [ReadMessage]; [None] when they run out with the loop still reading. *)
Fixpoint readLoop (reads : list ReadResult) (u : Usage.t) (c : Context.t)
    : option (HandlerResult * Context.t) :=
  match reads with
  | [] => None
  | ReadErr err :: _ =>
      if Go.is_EOF err then Some ((None, Some u), c)
      else Some ((Some (errorWrapper err "wss_read_msg_failed"
                          Go.StatusInternalServerError), None), c)
  | ReadMsg messageType audioData :: rest =>
      if (messageType =? TextMessage)%Z then
        let msg := fst (Unmarshal_AliWSSMessage audioData) in
        if (AliWSSMessage.Event msg =? "task-finished")%string then
          Some ((None,
                 Some (Usage.mk (Usage.PromptTokens u) (Usage.CompletionTokens u)
                         (AliWSSMessage.Characters msg))), c)
        else readLoop rest u c
      else if (messageType =? BinaryMessage)%Z then
        match writeAudio audioData c with
        | (c', Some writeErr) =>
            Some ((Some (errorWrapper writeErr "write_audio_failed"
                           Go.StatusInternalServerError), None), c')
        | (c', None) => readLoop rest u c'
        end
      else readLoop rest u c
  end.

(** [aliTTSHandler]. *)
Definition aliTTSHandler (conn : Conn.t) (c : Context.t)
    : option (HandlerResult * Context.t) :=
  match Conn.DialErr conn with
  | Some err =>
      Some ((Some (errorWrapper err "wss_conn_failed"
                     Go.StatusInternalServerError), None), c)
  | None =>
      match Conn.WriteJSONErr conn with
      | Some err =>
          Some ((Some (errorWrapper err "wss_write_msg_failed"
                         Go.StatusInternalServerError), None), c)
      | None => readLoop (Conn.Reads conn) Usage.zero c
      end
  end.

End Handlers.

(* ===================================================================== *)
(** ** Vocabulary of the properties *)
(* ===================================================================== *)

(** [a] is a prefix of [b], as [strings.HasPrefix] decides it. *)
Definition is_prefix (a b : string) : Prop := Go.HasPrefix b a = true.

(** Each text is a prefix of the next. *)
Fixpoint prefix_chain (texts : list string) : Prop :=
  match texts with
  | a :: rest =>
      match rest with
      | b :: _ => is_prefix a b /\ prefix_chain rest
      | [] => True
      end
  | [] => True
  end.

(** Each cumulative text with the text before it removed as a prefix;
    [prev] is the text before the first. *)
Fixpoint trimmed (prev : string) (texts : list string) : list string :=
  match texts with
  | [] => []
  | t :: rest => Go.TrimPrefix t prev :: trimmed t rest
  end.

Definition concat_all (parts : list string) : string :=
  fold_right String.append "" parts.

(** The delta texts carried by a run of rendered events. *)
Definition deltas (events : list StreamEvent) : list string :=
  flat_map (fun e => match e with
                     | ChunkEvent response => [deltaContent response]
                     | DoneEvent => []
                     end) events.

Definition is_chunk (e : StreamEvent) : Prop :=
  match e with ChunkEvent _ => True | DoneEvent => False end.

(** The events a handler rendered: those of [after] beyond those already in
    [before]. *)
Definition emitted (before after : Context.t) : list StreamEvent :=
  skipn (List.length (Context.Rendered before)) (Context.Rendered after).

Definition text_of (r : AliChatResponse.t) : string :=
  AliOutput.Text (AliChatResponse.Output r).

Definition decodes (Unmarshal : string -> result AliChatResponse.t)
    (frame : Received) : bool :=
  match Unmarshal (Payload frame) with Ok _ => true | Failed _ => false end.

(** The finish reason of the (single) choice of a chunk. *)
Definition finishReasonOf (response : ChatCompletionsStreamResponse.t) : option string :=
  ChatCompletionsStreamResponseChoice.FinishReason
    (hd ChatCompletionsStreamResponseChoice.zero
        (ChatCompletionsStreamResponse.Choices response)).

(** A client that has accepted nothing yet and never fails. *)
Definition freshContext : Context.t := Context.mk [] None [] [] None.

(** The slices the chunking loop hands to [Write] for one binary frame. *)
Definition chunksOf (audioData : list byte) : list (list byte) :=
  Context.Written (fst (writeAudio audioData freshContext)).

(** The slices of [audioData] the chunking loop takes from index [i] on,
    the writes left aside. *)
Fixpoint slices (fuel : nat) (audioData : list byte) (i : nat) : list (list byte) :=
  match fuel with
  | O => []
  | S fuel' =>
      if (i <? List.length audioData)%nat then
        let end_ := if (List.length audioData <? i + chunkSize)%nat
                    then List.length audioData else i + chunkSize in
        firstn (end_ - i) (skipn i audioData)
          :: slices fuel' audioData (i + chunkSize)
      else []
  end.

(** The payloads of the binary messages among some read results. *)
Definition binaryFrames (reads : list ReadResult) : list (list byte) :=
  flat_map (fun r => match r with
                     | ReadMsg messageType p =>
                         if (messageType =? TextMessage)%Z then []
                         else if (messageType =? BinaryMessage)%Z then [p]
                         else []
                     | ReadErr _ => []
                     end) reads.

(** The client lets [k] more writes through. *)
Definition accepts_writes (k : nat) (c : Context.t) : Prop :=
  match Context.Failure c with
  | Some (n, _) => k <= n
  | None => True
  end.

(** [c] after the client has let the writes of the slices [ps] through:
    they are written, and as many of its good writes are used up. *)
Definition delivered (ps : list (list byte)) (c : Context.t) : Context.t :=
  Context.mk (Context.Header c) (Context.Status c) (Context.Written c ++ ps)
             (Context.Rendered c)
             (match Context.Failure c with
              | Some (n, e) => Some (n - List.length ps, e)
              | None => None
              end).


(** [c] after the client has accepted the further slices [ps]. *)
Definition accepted (ps : list (list byte)) (c : Context.t) : Context.t :=
  Context.mk (Context.Header c) (Context.Status c) (Context.Written c ++ ps)
             (Context.Rendered c) (Context.Failure c).

(** A read result after which the relay keeps reading, as long as its
    writes succeed: a message that is not a completion frame. *)
Definition keeps_reading (Unmarshal : list byte -> AliWSSMessage.t * option Go.error)
    (r : ReadResult) : Prop :=
  match r with
  | ReadMsg messageType p =>
      messageType = TextMessage ->
      AliWSSMessage.Event (fst (Unmarshal p)) <> "task-finished"
  | ReadErr _ => False
  end.

(* ===================================================================== *)
(** ** Sample inputs *)
(* ===================================================================== *)

(** Two turns without a system message. *)
Definition two_turns : list Message :=
  [mkMessage "user" "hi"; mkMessage "assistant" "hello"].

(** Three turns without a system message. *)
Definition three_turns : list Message :=
  [mkMessage "user" "hi"; mkMessage "assistant" "hello"; mkMessage "user" "weather?"].

(** Scenario A of the design document. *)
Definition scenario_A : list Message :=
  [mkMessage "system" "be terse"; mkMessage "user" "hi";
   mkMessage "assistant" "hello"; mkMessage "user" "weather?"].

(** A system message after a completed exchange. *)
Definition mid_system : list Message :=
  [mkMessage "user" "hi"; mkMessage "assistant" "hello";
   mkMessage "system" "be terse"; mkMessage "user" "weather?"].

(** A system message that follows a user message. *)
Definition late_system : list Message :=
  [mkMessage "user" "hi"; mkMessage "system" "be terse"; mkMessage "user" "weather?"].

Definition chat (msgs : list Message) : GeneralOpenAIRequest :=
  mkGeneralOpenAIRequest "qwen-turbo" msgs.

(** Stand-ins for the helpers the handlers are parameterised by, used to
    run the handlers on the sample inputs. *)

Definition sample_errorWrapper (err : Go.error) (code : string) (statusCode : Go.int)
    : OpenAIErrorWithStatusCode.t :=
  OpenAIErrorWithStatusCode.mk
    (OpenAIError.mk
       (match err with Go.io_EOF => "EOF" | Go.other_error msg => msg end)
       "one_api_error" "" code)
    statusCode.

Definition sample_setEventStreamHeaders (c : Context.t) : Context.t :=
  Context.HeaderSet "Cache-Control" "no-cache"
    (Context.HeaderSet "Content-Type" "text/event-stream" c).

Definition reply (text finish : string) (input output : Go.int) : AliChatResponse.t :=
  AliChatResponse.mk (AliOutput.mk text finish)
    (AliUsage.mk input output (input + output)%Z)
    (AliError.mk "" "" "req-1").

(** A toy wire format: [?] is a payload that does not decode, [E] a vendor
    error reply, [Hello!] the last frame of the stream (finish reason and
    usage set), any other payload a frame whose output text is the payload
    itself. *)
Definition sample_Unmarshal (payload : string) : result AliChatResponse.t :=
  if (payload =? "?")%string then
    Failed (Go.other_error "unexpected end of JSON input")
  else if (payload =? "E")%string then
    Ok (AliChatResponse.mk (AliOutput.mk "" "") (AliUsage.mk 0 0 0)%Z
          (AliError.mk "InvalidParameter" "url error" "req-9"))
  else if (payload =? "Hello!")%string then
    Ok (reply payload "stop" 7 3)%Z
  else Ok (reply payload "null" 0 0)%Z.

(** A toy control-frame format: a frame starting with [f] is the completion
    event reporting 12 characters, one starting with [s] the start event;
    anything else does not decode and leaves the message zero. *)
Definition sample_Unmarshal_WSS (p : list byte) : AliWSSMessage.t * option Go.error :=
  match p with
  | "f"%byte :: _ => (AliWSSMessage.mk "task-1" "task-finished" 12%Z, None)
  | "s"%byte :: _ => (AliWSSMessage.mk "task-1" "task-started" 0%Z, None)
  | _ => (AliWSSMessage.zero, Some (Go.other_error "invalid character"))
  end.

Definition sample_Marshal_text (r : OpenAITextResponse.t) : list byte :=
  list_byte_of_string (OpenAITextResponse.Id r).

Definition sample_Marshal_chunk (r : ChatCompletionsStreamResponse.t) : string :=
  deltaContent r.

(** Scenario B of the design document. *)
Definition scenario_B : list Received :=
  [mkReceived 1700000000%Z "Hel"; mkReceived 1700000001%Z "Hello";
   mkReceived 1700000002%Z "Hello!"].

(** What the frames of scenario B decode to. *)
Definition scenario_B_replies : list AliChatResponse.t :=
  [reply "Hel" "null" 0%Z 0%Z; reply "Hello" "null" 0%Z 0%Z;
   reply "Hello!" "stop" 7%Z 3%Z].

(** Scenario B with an undecodable frame in the middle. *)
Definition scenario_B_glitch : list Received :=
  [mkReceived 1700000000%Z "Hel"; mkReceived 1700000001%Z "?";
   mkReceived 1700000001%Z "Hello"; mkReceived 1700000002%Z "Hello!"].

(** The vectors of scenario C of the design document, [.1, .2] and [.9],
    as the binary64 values the decoder reads. *)
#[local] Set Warnings "-inexact-float".
Definition vector_1_2 : list float := [0.1%float; 0.2%float].
Definition vector_9 : list float := [0.9%float].
#[local] Set Warnings "inexact-float".

(** Scenario C of the design document. *)
Definition scenario_C : AliEmbeddingResponse.t :=
  AliEmbeddingResponse.mk
    [AliEmbedding.mk vector_1_2 1%Z; AliEmbedding.mk vector_9 0%Z]
    (AliUsage.mk 0 0 3)%Z
    (AliError.mk "" "" "req-2").

(** What the body of scenario D decodes to. *)
Definition scenario_D_reply : AliChatResponse.t :=
  AliChatResponse.mk (AliOutput.mk "" "") (AliUsage.mk 0 0 0)%Z
    (AliError.mk "InvalidParameter" "url error" "req-9").

(** Scenario D of the design document: HTTP 400 with an error code. *)
Definition scenario_D : Response.t := Response.mk 400%Z (Ok "E") None.

(** A vendor response whose body fails to close. *)
Definition broken_close : Response.t :=
  Response.mk 200%Z (Ok "") (Some (Go.other_error "connection reset")).

Definition clean_close : Response.t := Response.mk 200%Z (Ok "") None.

(** A client whose connection is already gone. *)
Definition goneContext : Context.t :=
  Context.mk [] None [] [] (Some (0, Go.other_error "broken pipe")).

(** A frame that reports input tokens but no output tokens, and a decoder
    that reads every payload as this frame. *)
Definition input_only_reply : AliChatResponse.t := reply "Hel" "null" 5%Z 0%Z.

Definition input_only_Unmarshal (payload : string) : result AliChatResponse.t :=
  Ok input_only_reply.

(** A vendor socket that delivers one audio frame and then closes. *)
Definition one_frame_socket : Conn.t :=
  Conn.mk None None
    [ReadMsg BinaryMessage ["a"%byte; "b"%byte; "c"%byte];
     ReadErr (Go.other_error
                "websocket: close 1006 (abnormal closure): unexpected EOF")].

(** Start event, two audio frames, completion event. *)
Definition full_socket : Conn.t :=
  Conn.mk None None
    [ReadMsg TextMessage ["s"%byte];
     ReadMsg BinaryMessage (repeat "a"%byte 1500);
     ReadMsg BinaryMessage ["b"%byte; "c"%byte];
     ReadMsg TextMessage ["f"%byte]].

(* ===================================================================== *)
(** ** The scanning goroutine of [aliStreamHandler] *)
(* ===================================================================== *)

Definition newline : ascii := "010"%char.

(** [strings.Index(s, "\n")]: the index of the first newline byte; [None]
    stands for [-1]. *)
Fixpoint IndexNewline (s : string) : option nat :=
  match s with
  | EmptyString => None
  | String ch rest =>
      if Ascii.eqb ch newline then Some 0
      else match IndexNewline rest with
           | Some i => Some (S i)
           | None => None
           end
  end.

(** The split function given to [scanner.Split]: the bytes to advance by,
    the token ([None] is the nil token) and the error. *)
Definition splitFunc (data : string) (atEOF : bool)
    : nat * option string * option Go.error :=
  if atEOF && (String.length data =? 0)%nat then (0, None, None)
  else
    match IndexNewline data with
    | Some i => (i + 1, Some (substring 0 i data), None)
    | None =>
        if atEOF then (String.length data, Some data, None)
        else (0, None, None)
    end.

(** What the goroutine does with one scanned line: the payload it sends on
    [dataChan], or [None] when the line is ignored. *)
Definition linePayload (data : string) : option string :=
  if (String.length data <? 5)%nat then None
  else if negb (substring 0 5 data =? "data:")%string then None
  else Some (Go.slice_from data 5).

(** The tokens the split function yields when it is applied again and again
    to what is left of a body that has been read to its end; one token per
    unit of [fuel]. *)
Fixpoint splitTokens (fuel : nat) (data : string) : list string :=
  match fuel with
  | O => []
  | S fuel' =>
      match splitFunc data true with
      | (advance, Some token, _) =>
          token :: splitTokens fuel' (Go.slice_from data advance)
      | (_, None, _) => []
      end
  end.

(** Every token takes at least one byte, so [len(body)] applications
    exhaust the body.  This is the split function alone: the scanner that
    drives it in the source has a token limit ([bufio.MaxScanTokenSize],
    64 KiB, no [Buffer] call), stops at the first line that does not fit
    and delivers nothing from there on; the two agree on bodies whose lines
    all fit. *)
Definition bodyTokens (body : string) : list string :=
  splitTokens (String.length body) body.

(** [bufio.MaxScanTokenSize]. *)
Definition MaxScanTokenSize : Z := 65536%Z.

(** A line that, with the newline that ends it, fits the scanner's
    buffer. *)
Definition fits_scanner (line : string) : Prop :=
  (Z.of_nat (String.length line) + 1 < MaxScanTokenSize)%Z.

(** The payloads sent on [dataChan] for these tokens. *)
Definition tokenPayloads (tokens : list string) : list string :=
  flat_map (fun data => match linePayload data with
                        | Some payload => [payload]
                        | None => []
                        end) tokens.

Definition has_newline (s : string) : Prop := IndexNewline s <> None.

(** A line as it travels: its bytes and the newline that ends it. *)
Definition terminated (line : string) : string :=
  (line ++ String newline "")%string.

(* ===================================================================== *)
(** ** The embedding handler: [aliEmbeddingHandler] *)
(* ===================================================================== *)

Section EmbeddingHandler.

(** [Decode] is what [json.NewDecoder(resp.Body).Decode] yields on the body
    of the response.  [json.Marshal] fails on an embedding that holds a NaN
    or an infinity, so here it returns a result. *)
Variable errorWrapper : Go.error -> string -> Go.int -> OpenAIErrorWithStatusCode.t.
Variable Decode_AliEmbeddingResponse : Response.t -> result AliEmbeddingResponse.t.
Variable Marshal_OpenAIEmbeddingResponse :
  OpenAIEmbeddingResponse.t -> result (list byte).

Definition aliEmbeddingHandler (resp : Response.t) (c : Context.t)
    : HandlerResult * Context.t :=
  match Decode_AliEmbeddingResponse resp with
  | Failed err =>
      ((Some (errorWrapper err "unmarshal_response_body_failed"
                Go.StatusInternalServerError), None), c)
  | Ok aliResponse =>
      match Response.Close resp with
      | Some err =>
          ((Some (errorWrapper err "close_response_body_failed"
                    Go.StatusInternalServerError), None), c)
      | None =>
          if negb (AliError.Code (AliEmbeddingResponse.Error aliResponse) =? "")%string
          then
            ((Some (vendorError (AliEmbeddingResponse.Error aliResponse)
                      (Response.StatusCode resp)), None), c)
          else
            let fullTextResponse := embeddingResponseAli2OpenAI aliResponse in
            match Marshal_OpenAIEmbeddingResponse fullTextResponse with
            | Failed err =>
                ((Some (errorWrapper err "marshal_response_body_failed"
                          Go.StatusInternalServerError), None), c)
            | Ok jsonResponse =>
                let c1 := Context.HeaderSet "Content-Type" "application/json" c in
                let c2 := Context.WriteHeader (Response.StatusCode resp) c1 in
                let '(c3, _) := Context.Write jsonResponse c2 in
                ((None, Some (OpenAIEmbeddingResponse.Usage fullTextResponse)), c3)
            end
      end
  end.

End EmbeddingHandler.

(* ===================================================================== *)
(** ** Further sample inputs *)
(* ===================================================================== *)

(** A successful unary reply: the toy payload [Hello!] with HTTP 200. *)
Definition hello_response : Response.t := Response.mk 200%Z (Ok "Hello!") None.

(** A vendor error reply to an embedding call. *)
Definition embedding_error_reply : AliEmbeddingResponse.t :=
  AliEmbeddingResponse.mk [] (AliUsage.mk 0 0 0)%Z
    (AliError.mk "InvalidParameter" "url error" "req-9").

(** A toy decoder for embedding replies: the body [E] is the vendor error
    above, any other body that can be read is scenario C. *)
Definition sample_Decode_embedding (resp : Response.t)
    : result AliEmbeddingResponse.t :=
  match Response.Body resp with
  | Failed err => Failed err
  | Ok body =>
      if (body =? "E")%string then Ok embedding_error_reply else Ok scenario_C
  end.

Definition sample_Marshal_embedding (r : OpenAIEmbeddingResponse.t)
    : result (list byte) :=
  Ok (list_byte_of_string (OpenAIEmbeddingResponse.Model r)).

(* ===================================================================== *)
(** ** Further vocabulary *)
(* ===================================================================== *)

(** The replies of the frames that decode, in order. *)
Definition decodedReplies (Unmarshal : string -> result AliChatResponse.t)
    (frames : list Received) : list AliChatResponse.t :=
  flat_map (fun frame => match Unmarshal (Payload frame) with
                         | Ok r => [r]
                         | Failed _ => []
                         end) frames.

Definition reports_usage (r : AliChatResponse.t) : Prop :=
  AliUsage.OutputTokens (AliChatResponse.Usage r) <> 0%Z.

(** The constant parts of a stream chunk. *)
Definition chunk_shape (e : StreamEvent) : Prop :=
  match e with
  | ChunkEvent r =>
      ChatCompletionsStreamResponse.Object r = "chat.completion.chunk"
      /\ ChatCompletionsStreamResponse.Model r = "ernie-bot"
      /\ List.length (ChatCompletionsStreamResponse.Choices r) = 1
  | DoneEvent => True
  end.

(** No text extends the text before it: the previous text is empty or is
    not a prefix of the next. *)
Fixpoint no_text_extends (prev : string) (texts : list string) : Prop :=
  match texts with
  | [] => True
  | t :: rest => (prev = "" \/ Go.HasPrefix t prev = false) /\ no_text_extends t rest
  end.

(** [a] is a prefix of [b], for byte slices. *)
Definition bytes_prefix (a b : list byte) : Prop := exists tail, b = a ++ tail.

(** A vendor socket that delivers one audio frame and is then reset. *)
Definition reset_socket : Conn.t :=
  Conn.mk None None [ReadMsg BinaryMessage ["a"%byte; "b"%byte; "c"%byte];
                     ReadErr (Go.other_error "connection reset")].

(** [conn] with further read results after its own. *)
Definition with_more_reads (conn : Conn.t) (more : list ReadResult) : Conn.t :=
  Conn.mk (Conn.DialErr conn) (Conn.WriteJSONErr conn) (Conn.Reads conn ++ more).

(* ##################################################################### *)
(** * Part II: properties *)
(* ##################################################################### *)

(* ===================================================================== *)
(** ** Properties of the chat request translator *)
(* ===================================================================== *)

Lemma skipn_nth_cons (msgs : list Message) i :
  i < List.length msgs ->
  skipn i msgs = nth i msgs zeroMessage :: skipn (S i) msgs.
Proof.
  revert i; induction msgs as [|a l IH]; intros i Hi; simpl in Hi; [lia|].
  destruct i as [|i]; [reflexivity|].
  exact (IH i ltac:(lia)).
Qed.

(** The index loop, started at a loop head [i] with enough fuel, appends
    exactly what [walk] reads off the suffix [msgs[i:]]. *)
Lemma requestLoop_walk fuel : forall msgs i p acc,
  List.length msgs - i <= fuel ->
  requestLoop fuel msgs i p acc =
    (match fst (walk (skipn i msgs)) with Some c => c | None => p end,
     acc ++ snd (walk (skipn i msgs))).
Proof.
  induction fuel as [|fuel IH]; intros msgs i p acc Hfuel.
  - simpl. rewrite skipn_all2 by lia. simpl. now rewrite app_nil_r.
  - cbn [requestLoop].
    destruct (Nat.ltb_spec i (List.length msgs)) as [Hlt|Hge].
    + rewrite (skipn_nth_cons msgs i Hlt).
      set (message := nth i msgs zeroMessage).
      destruct (Role message =? "system")%string eqn:Hrole.
      * rewrite IH by lia. replace (i + 1) with (S i) by lia.
        set (rest := skipn (S i) msgs).
        cbn [walk]. rewrite Hrole.
        destruct (walk rest) as [q h]. cbn [fst snd].
        now rewrite <- app_assoc.
      * destruct (Nat.eqb_spec i (List.length msgs - 1)) as [He|Hne].
        -- rewrite (skipn_all2 msgs (n := S i)) by lia.
           cbn [walk]. rewrite Hrole. cbn [fst snd].
           now rewrite app_nil_r.
        -- rewrite (skipn_nth_cons msgs (S i)) by lia.
           rewrite IH by lia.
           replace (i + 1 + 1) with (S (S i)) by lia.
           replace (i + 1) with (S i) by lia.
           set (rest := skipn (S (S i)) msgs).
           cbn [walk]. rewrite Hrole.
           destruct (walk rest) as [q h]. cbn [fst snd].
           now rewrite <- app_assoc.
    + rewrite skipn_all2 by lia. simpl. now rewrite app_nil_r.
Qed.

Lemma requestOpenAI2Ali_walk request :
  requestOpenAI2Ali request =
    AliChatRequest.mk (Model request)
      (mkAliInput (prompt_of (fst (walk (Messages request))))
                  (snd (walk (Messages request))))
      zeroParameters.
Proof.
  unfold requestOpenAI2Ali.
  rewrite requestLoop_walk by lia. simpl.
  destruct (fst (walk (Messages request))); reflexivity.
Qed.

(** Induction two messages at a time, the stride of the pairing branch. *)
Lemma list_pair_ind (A : Type) (P : list A -> Prop) :
  P [] -> (forall a, P [a]) ->
  (forall a b l, P l -> P (a :: b :: l)) ->
  forall l, P l.
Proof.
  intros H0 H1 H2 l.
  enough (P l /\ forall a, P (a :: l)) by tauto.
  induction l as [|b l [IHl IHc]]; split; auto.
Qed.

Lemma role_neq_eqb (m : Message) :
  Role m <> "system" -> (Role m =? "system")%string = false.
Proof. intros H. now apply String.eqb_neq. Qed.

Lemma walk_no_system_pair a b l :
  Role a <> "system" ->
  walk (a :: b :: l) =
    (fst (walk l), mkAliMessage (StringContent a) (StringContent b) :: snd (walk l)).
Proof.
  intros Ha. simpl. rewrite (role_neq_eqb a Ha).
  destruct (walk l); reflexivity.
Qed.

Lemma walk_no_system_single a :
  Role a <> "system" -> walk [a] = (Some (StringContent a), []).
Proof. intros Ha. simpl. now rewrite (role_neq_eqb a Ha). Qed.

Lemma walk_system a l :
  Role a = "system" -> walk (a :: l) = (fst (walk l), okay a :: snd (walk l)).
Proof.
  intros Ha. simpl. apply String.eqb_eq in Ha. rewrite Ha.
  destruct (walk l); reflexivity.
Qed.

Lemma div2_SS n : S (S n) / 2 = S (n / 2).
Proof.
  change (S (S n)) with (2 + n).
  replace (2 + n) with (1 * 2 + n) by lia.
  rewrite Nat.div_add_l by lia. lia.
Qed.

Lemma walk_no_system_facts : forall msgs,
  no_system msgs ->
  List.length (snd (walk msgs)) = List.length msgs / 2
  /\ fst (walk msgs) =
       (if Nat.odd (List.length msgs)
        then Some (StringContent (last msgs zeroMessage)) else None)
  /\ flatten (snd (walk msgs))
       ++ match fst (walk msgs) with Some c => [c] | None => [] end
     = map StringContent msgs
  /\ (msgs <> [] -> Nat.even (List.length msgs) = true ->
      Bot (last (snd (walk msgs)) (mkAliMessage "" ""))
        = StringContent (last msgs zeroMessage)).
Proof.
  induction msgs as [| a | a b l IH] using list_pair_ind; intros Hns.
  - simpl. repeat split; try reflexivity; intros; congruence.
  - inversion Hns as [|? ? Ha _]; subst.
    rewrite (walk_no_system_single a Ha). simpl.
    repeat split; try reflexivity; intros; discriminate.
  - inversion Hns as [|? ? Ha Hns']; subst.
    inversion Hns' as [|? ? Hb Hl]; subst.
    destruct (IH Hl) as (IHlen & IHp & IHflat & IHlast).
    rewrite (walk_no_system_pair a b l Ha).
    cbn [fst snd List.length].
    rewrite div2_SS, IHlen. split; [reflexivity|].
    split.
    { rewrite IHp. rewrite Nat.odd_succ, Nat.even_succ.
      destruct l as [|c l']; [reflexivity|].
      change (last (a :: b :: c :: l') zeroMessage) with (last (c :: l') zeroMessage).
      reflexivity. }
    split.
    { unfold flatten in *. simpl. now rewrite IHflat. }
    intros _ Hev. rewrite Nat.even_succ, Nat.odd_succ in Hev.
    destruct l as [|c l']; [reflexivity|].
    assert (Hne : c :: l' <> []) by congruence.
    specialize (IHlast Hne Hev).
    change (last (a :: b :: c :: l') zeroMessage) with (last (c :: l') zeroMessage).
    rewrite <- IHlast.
    destruct (snd (walk (c :: l'))) as [|x xs] eqn:E.
    + exfalso. destruct l' as [|d l'']; [simpl in Hev; discriminate|].
      cbn [List.length] in IHlen. rewrite div2_SS in IHlen. discriminate.
    + reflexivity.
Qed.

(** The walk over [a ++ b] when the walk over [a] alone ends at its last
    message without setting a prompt: the two halves are translated
    independently. *)
Lemma walk_app : forall a b,
  fst (walk a) = None ->
  walk (a ++ b) = (fst (walk b), snd (walk a) ++ snd (walk b)).
Proof.
  intros a b.
  remember (List.length a) as n eqn:Hn.
  assert (Hle : List.length a <= n) by lia. clear Hn.
  revert a Hle.
  induction n as [|n IH]; intros a Hle Ha.
  - destruct a; [|simpl in Hle; lia]. simpl. now destruct (walk b).
  - destruct a as [|x l]; [simpl; now destruct (walk b)|].
    simpl in Hle.
    destruct (String.eqb_spec (Role x) "system") as [Hs|Hs].
    + rewrite (walk_system x l Hs) in *. cbn [fst snd] in *.
      change ((x :: l) ++ b) with (x :: (l ++ b)).
      rewrite (walk_system x _ Hs), (IH l) by (lia || assumption).
      reflexivity.
    + destruct l as [|y l'].
      * rewrite (walk_no_system_single x Hs) in Ha. discriminate.
      * rewrite (walk_no_system_pair x y l' Hs) in *. cbn [fst snd] in *.
        change ((x :: y :: l') ++ b) with (x :: y :: (l' ++ b)).
        simpl in Hle.
        rewrite (walk_no_system_pair x y _ Hs), (IH l') by (lia || assumption).
        reflexivity.
Qed.

Lemma firstn_snoc (A : Type) : forall i (l : list A) m,
  nth_error l i = Some m -> firstn (S i) l = firstn i l ++ [m].
Proof.
  induction i as [|i IH]; intros [|x l] m H; simpl in H; try discriminate.
  - injection H as ->. reflexivity.
  - change (x :: firstn (S i) l = x :: (firstn i l ++ [m])).
    f_equal. now apply IH.
Qed.

(** At a loop head the messages before it have been translated on their
    own, without leaving a prompt. *)
Lemma visited_prefix msgs i :
  visited msgs i -> i <= List.length msgs /\ fst (walk (firstn i msgs)) = None.
Proof.
  induction 1 as [| i m Hv [IHle IH] Hnth Hrole | i m Hv [IHle IH] Hnth Hrole Hlt].
  - split; [lia | reflexivity].
  - assert (Hi : i < List.length msgs) by (apply nth_error_Some; congruence).
    split; [lia|].
    replace (i + 1) with (S i) by lia.
    rewrite (firstn_snoc _ i msgs m Hnth), (walk_app _ _ IH).
    now rewrite (walk_system m [] Hrole).
  - split; [lia|].
    destruct (nth_error msgs (S i)) as [m'|] eqn:Hnth'.
    2:{ apply nth_error_None in Hnth'. lia. }
    replace (i + 2) with (S (S i)) by lia.
    rewrite (firstn_snoc _ (S i) msgs m' Hnth'), (firstn_snoc _ i msgs m Hnth).
    rewrite <- app_assoc. cbn [app].
    rewrite (walk_app _ _ IH).
    now rewrite (walk_no_system_pair m m' [] Hrole).
Qed.

(** The translation at a message the loop reaches. *)
Lemma walk_at_visited msgs i m :
  visited msgs i -> nth_error msgs i = Some m ->
  walk msgs =
    (fst (walk (m :: skipn (S i) msgs)),
     snd (walk (firstn i msgs)) ++ snd (walk (m :: skipn (S i) msgs))).
Proof.
  intros Hv Hnth.
  destruct (visited_prefix msgs i Hv) as [_ Hpre].
  rewrite <- (@firstn_skipn_middle _ i msgs m Hnth) at 1.
  now apply walk_app.
Qed.

(** [visited] does describe the loop: from a visited index, with the pairs
    of the messages before it, the loop finishes as the whole run does. *)
Lemma visited_is_loop_head msgs i fuel :
  visited msgs i ->
  List.length msgs - i <= fuel ->
  requestLoop (List.length msgs) msgs 0 "" []
    = requestLoop fuel msgs i "" (snd (walk (firstn i msgs))).
Proof.
  intros Hv Hfuel.
  destruct (visited_prefix msgs i Hv) as [_ Hpre].
  rewrite !requestLoop_walk by lia. cbn [skipn app].
  rewrite <- (firstn_skipn i msgs) at 1 2.
  now rewrite (walk_app _ _ Hpre).
Qed.

(** Scenario A: the system message is primed, the exchange is paired and
    the trailing user message is the prompt. *)
Example scenario_A_translation :
  AliChatRequest.Input (requestOpenAI2Ali (chat scenario_A))
    = mkAliInput "weather?"
        [mkAliMessage "be terse" "Okay"; mkAliMessage "hi" "hello"].
Proof. reflexivity. Qed.

(* --------------------------------------------------------------------- *)
(** *** C2: history pairing *)
(* --------------------------------------------------------------------- *)

(** C2, as stated, fails on a sequence of two non-system messages: the
    translator produces one history pair, while ⌊(2−1)/2⌋ is zero. *)
Lemma C2_two_turns_one_pair :
  no_system two_turns
  /\ List.length two_turns = 2
  /\ History (AliChatRequest.Input (requestOpenAI2Ali (chat two_turns)))
       = [mkAliMessage "hi" "hello"]
  /\ List.length (History (AliChatRequest.Input (requestOpenAI2Ali (chat two_turns)))) = 1
  /\ (List.length two_turns - 1) / 2 = 0.
Proof.
  repeat split; try reflexivity.
  repeat constructor; discriminate.
Qed.

(** C2 (amended): for every message sequence of length N without system
    messages, [requestOpenAI2Ali] produces exactly ⌊N/2⌋ history pairs; when
    N is odd the prompt is the content of the last message; when N is even
    the prompt stays empty and the last message is the bot half of the last
    pair; and every message is used exactly once: the user and bot texts of
    the pairs, in order, followed by the prompt when N is odd, are the
    contents of the input messages in order. *)
Theorem C2_history_pairing : forall request,
  no_system (Messages request) ->
  let N := List.length (Messages request) in
  let out := AliChatRequest.Input (requestOpenAI2Ali request) in
  List.length (History out) = N / 2
  /\ (Nat.odd N = true ->
      Prompt out = StringContent (last (Messages request) zeroMessage))
  /\ (Nat.even N = true ->
      Prompt out = ""
      /\ (N <> 0 ->
          Bot (last (History out) (mkAliMessage "" ""))
            = StringContent (last (Messages request) zeroMessage)))
  /\ flatten (History out) ++ (if Nat.odd N then [Prompt out] else [])
       = map StringContent (Messages request).
Proof.
  intros request Hns N out. subst N out.
  rewrite requestOpenAI2Ali_walk. cbn [AliChatRequest.Input History Prompt].
  destruct (walk_no_system_facts (Messages request) Hns)
    as (Hlen & Hp & Hflat & Hlast).
  split; [exact Hlen|].
  rewrite Hp in *. clear Hp.
  unfold Nat.odd in *.
  destruct (Nat.even (List.length (Messages request))) eqn:Hev;
    cbn [negb prompt_of] in *.
  - split; [discriminate|]. split.
    + intros _. split; [reflexivity|].
      intros HN. apply Hlast; [|reflexivity].
      intros E. rewrite E in HN. now apply HN.
    + exact Hflat.
  - split; [reflexivity|]. split; [discriminate|]. exact Hflat.
Qed.

Lemma C2_history_pairing_witness :
  no_system three_turns
  /\ List.length (History (AliChatRequest.Input (requestOpenAI2Ali (chat three_turns)))) = 3 / 2
  /\ Prompt (AliChatRequest.Input (requestOpenAI2Ali (chat three_turns))) = "weather?".
Proof.
  assert (H : no_system three_turns) by (repeat constructor; discriminate).
  split; [exact H|].
  destruct (C2_history_pairing (chat three_turns) H) as (Hlen & Hodd & _).
  split; [exact Hlen|].
  exact (Hodd eq_refl).
Defined.

(* --------------------------------------------------------------------- *)
(** *** C4: system priming *)
(* --------------------------------------------------------------------- *)

(** C4, as stated, fails for a system message that directly follows a
    non-system message: it is consumed as the bot half of that message's
    pair, and no pair acknowledges it with "Okay". *)
Lemma C4_late_system_is_paired :
  In (mkMessage "system" "be terse") late_system
  /\ History (AliChatRequest.Input (requestOpenAI2Ali (chat late_system)))
       = [mkAliMessage "hi" "be terse"]
  /\ Prompt (AliChatRequest.Input (requestOpenAI2Ali (chat late_system))) = "weather?"
  /\ (In (mkAliMessage "be terse" "Okay")
         (History (AliChatRequest.Input (requestOpenAI2Ali (chat late_system)))) -> False).
Proof.
  split; [right; left; reflexivity|].
  split; [reflexivity|]. split; [reflexivity|].
  intros [H|[]]. discriminate.
Qed.

(** C4 (amended): every system message that the translator's walk reaches
    (one that is not consumed as the bot half of the pair of a non-system
    message before it) is converted into the history pair whose user text is
    the system content and whose bot text is "Okay", and the conversion
    consumes no second message: the history is the translation of the
    messages before it, then this pair, then the translation of the messages
    after it, started afresh at the very next message; the prompt is the one
    of that remainder. *)
Theorem C4_system_priming : forall model msgs i m,
  visited msgs i ->
  nth_error msgs i = Some m ->
  Role m = "system" ->
  let tr := fun l =>
    AliChatRequest.Input (requestOpenAI2Ali (mkGeneralOpenAIRequest model l)) in
  History (tr msgs)
    = History (tr (firstn i msgs))
        ++ mkAliMessage (StringContent m) "Okay"
        :: History (tr (skipn (S i) msgs))
  /\ Prompt (tr msgs) = Prompt (tr (skipn (S i) msgs))
  /\ visited msgs (i + 1).
Proof.
  intros model msgs i m Hv Hnth Hrole tr. subst tr. cbv beta.
  rewrite !requestOpenAI2Ali_walk. cbn [AliChatRequest.Input History Prompt Messages].
  rewrite (walk_at_visited msgs i m Hv Hnth).
  rewrite (walk_system m _ Hrole). cbn [fst snd].
  repeat split. now apply visited_system with (m := m).
Qed.

Lemma C4_system_priming_witness :
  visited mid_system 2
  /\ nth_error mid_system 2 = Some (mkMessage "system" "be terse")
  /\ History (AliChatRequest.Input (requestOpenAI2Ali (chat mid_system)))
     = [mkAliMessage "hi" "hello"; mkAliMessage "be terse" "Okay"]
  /\ Prompt (AliChatRequest.Input (requestOpenAI2Ali (chat mid_system)))
     = "weather?".
Proof.
  assert (Hv : visited mid_system 2).
  { apply (visited_pair mid_system 0 (mkMessage "user" "hi")).
    - apply visited_start.
    - reflexivity.
    - discriminate.
    - simpl. lia. }
  split; [exact Hv|]. split; [reflexivity|].
  destruct (C4_system_priming "qwen-turbo" mid_system 2
              (mkMessage "system" "be terse") Hv eq_refl eq_refl)
    as (Hh & Hp & _).
  split; [exact Hh | exact Hp].
Defined.

(* ===================================================================== *)
(** ** Go strings *)
(* ===================================================================== *)

Lemma append_assoc (a b c : string) : ((a ++ b) ++ c = a ++ (b ++ c))%string.
Proof. induction a as [|x a IH]; simpl; [reflexivity | now rewrite IH]. Qed.

Lemma append_empty_r (a : string) : (a ++ "")%string = a.
Proof. induction a as [|x a IH]; simpl; [reflexivity | now rewrite IH]. Qed.

Lemma substring_0_length (s : string) : substring 0 (String.length s) s = s.
Proof. induction s as [|c s IH]; simpl; [reflexivity | now rewrite IH]. Qed.

(** [s == s[0:n] + s[n:]] for [n <= len(s)]. *)
Lemma substring_split (n : nat) : forall s,
  n <= String.length s ->
  (substring 0 n s ++ Go.slice_from s n)%string = s.
Proof.
  unfold Go.slice_from.
  induction n as [|n IH]; intros s Hn.
  - rewrite Nat.sub_0_r, substring_0_length. now destruct s.
  - destruct s as [|c s]; simpl in Hn; [lia|].
    simpl. f_equal. apply IH. lia.
Qed.

Lemma HasPrefix_split (s prefix : string) :
  Go.HasPrefix s prefix = true ->
  (prefix ++ Go.TrimPrefix s prefix)%string = s.
Proof.
  intros H. unfold Go.TrimPrefix. rewrite H.
  unfold Go.HasPrefix in H. apply andb_true_iff in H as [Hlen Heq].
  apply Nat.leb_le in Hlen. apply String.eqb_eq in Heq.
  rewrite <- Heq at 1. now apply substring_split.
Qed.

Lemma HasPrefix_empty (s : string) : Go.HasPrefix s "" = true.
Proof. unfold Go.HasPrefix. now destruct s. Qed.

Lemma TrimPrefix_empty (s : string) : Go.TrimPrefix s "" = s.
Proof.
  pose proof (HasPrefix_split s "" (HasPrefix_empty s)) as H. exact H.
Qed.

Lemma last_cons_default (A : Type) : forall (l : list A) x d d',
  last (x :: l) d = last (x :: l) d'.
Proof.
  induction l as [|y l IH]; intros x d d'; [reflexivity|].
  change (last (y :: l) d = last (y :: l) d'). apply IH.
Qed.

(** Along a prefix chain the trimmed pieces add up to the last text. *)
Lemma trimmed_concat : forall texts prev,
  prefix_chain (prev :: texts) ->
  (prev ++ concat_all (trimmed prev texts))%string = last texts prev.
Proof.
  induction texts as [|t rest IH]; intros prev Hchain.
  - simpl. apply append_empty_r.
  - destruct Hchain as [Hpre Hrest].
    cbn [trimmed concat_all fold_right].
    rewrite <- append_assoc, (HasPrefix_split t prev Hpre).
    fold (concat_all (trimmed t rest)). rewrite (IH t Hrest).
    destruct rest as [|u rest']; [reflexivity|].
    change (last (t :: u :: rest') prev) with (last (u :: rest') prev).
    apply last_cons_default.
Qed.

Lemma prefix_chain_from_empty (texts : list string) :
  prefix_chain texts -> prefix_chain ("" :: texts).
Proof.
  destruct texts as [|t rest]; [exact (fun H => H)|].
  intros H. split; [apply HasPrefix_empty | exact H].
Qed.

Lemma trimmed_length : forall texts prev,
  List.length (trimmed prev texts) = List.length texts.
Proof. induction texts; intros; simpl; [reflexivity | now rewrite IHtexts]. Qed.

(** [Go.add] is the mathematical sum whenever that sum fits an [int]. *)
Lemma Go_add_exact (a b : Z) : Go.in_range (a + b) -> Go.add a b = (a + b)%Z.
Proof.
  unfold Go.in_range, Go.add, Go.wrap. intros H.
  rewrite Z.mod_small; lia.
Qed.

(* ===================================================================== *)
(** ** The streamed chat handler *)
(* ===================================================================== *)

Section StreamProperties.

Variable errorWrapper : Go.error -> string -> Go.int -> OpenAIErrorWithStatusCode.t.
Variable setEventStreamHeaders : Context.t -> Context.t.
Variable Unmarshal : string -> result AliChatResponse.t.

Lemma deltaContent_stream created r :
  deltaContent (streamResponseAli2OpenAI created r) = text_of r.
Proof. reflexivity. Qed.

Lemma deltaContent_set content created r :
  deltaContent (setDeltaContent content (streamResponseAli2OpenAI created r)) = content.
Proof. reflexivity. Qed.

Lemma onData_decoded s c frame r :
  Unmarshal (Payload frame) = Ok r ->
  onData Unmarshal (s, c) frame =
    (mkStreamState (updateUsage (AliChatResponse.Usage r) (usage s)) (text_of r),
     Context.Render
       (ChunkEvent
          (setDeltaContent (Go.TrimPrefix (text_of r) (lastResponseText s))
             (streamResponseAli2OpenAI (Now frame) r))) c).
Proof. intros H. unfold onData. rewrite H. reflexivity. Qed.

Lemma onData_failed s c frame err :
  Unmarshal (Payload frame) = Failed err ->
  onData Unmarshal (s, c) frame = (s, c).
Proof. intros H. unfold onData. now rewrite H. Qed.

(** What the data arm renders over a run of frames. *)
Lemma fold_onData_spec : forall frames s c,
  exists evs,
    Context.Rendered (snd (fold_left (onData Unmarshal) frames (s, c)))
      = Context.Rendered c ++ evs
    /\ Forall is_chunk evs
    /\ List.length evs = List.length (filter (decodes Unmarshal) frames)
    /\ (forall replies,
          Forall2 (fun f r => Unmarshal (Payload f) = Ok r) frames replies ->
          deltas evs = trimmed (lastResponseText s) (map text_of replies)).
Proof.
  induction frames as [|frame rest IH]; intros s c.
  - exists []. cbn [fold_left snd filter List.length].
    rewrite app_nil_r. repeat split; auto.
    intros replies H. inversion H. reflexivity.
  - cbn [fold_left filter]. unfold decodes at 1.
    destruct (Unmarshal (Payload frame)) as [r|err] eqn:Hdec.
    + rewrite (onData_decoded s c frame r Hdec).
      match goal with |- context [fold_left _ rest (?s1, ?c1)] =>
        destruct (IH s1 c1) as (evs & Hr & Hch & Hlen & Hd) end.
      match type of Hr with context [Context.Render (ChunkEvent ?e) c] =>
        exists (ChunkEvent e :: evs) end.
      split.
      { rewrite Hr. cbn [Context.Render Context.Rendered].
        now rewrite <- app_assoc. }
      split; [constructor; [exact I | exact Hch]|].
      split; [cbn [List.length]; now rewrite Hlen|].
      intros replies H. inversion H as [|? r' ? replies' Hr' Hrest]; subst.
      rewrite Hdec in Hr'. injection Hr' as <-.
      cbn [deltas flat_map app map trimmed].
      rewrite deltaContent_set. f_equal.
      exact (Hd replies' Hrest).
    + rewrite (onData_failed s c frame err Hdec).
      destruct (IH s c) as (evs & Hr & Hch & Hlen & Hd).
      exists evs. repeat split; auto.
      intros replies H. inversion H as [|? r' ? replies' Hr' Hrest]; subst.
      rewrite Hdec in Hr'. discriminate.
Qed.

(** A frame that does not decode leaves no trace in the fold. *)
Lemma fold_onData_skip pre bad post st err :
  Unmarshal (Payload bad) = Failed err ->
  fold_left (onData Unmarshal) (pre ++ bad :: post) st
    = fold_left (onData Unmarshal) (pre ++ post) st.
Proof.
  intros H. rewrite !fold_left_app. cbn [fold_left].
  destruct (fold_left (onData Unmarshal) pre st) as [s c].
  now rewrite (onData_failed s c bad err H).
Qed.

Lemma aliStreamHandler_context resp frames c :
  snd (aliStreamHandler errorWrapper setEventStreamHeaders Unmarshal resp frames c)
    = Context.Render DoneEvent
        (snd (fold_left (onData Unmarshal) frames
                (mkStreamState Usage.zero "", setEventStreamHeaders c))).
Proof.
  unfold aliStreamHandler, onStop.
  destruct (fold_left _ frames _) as [s c1].
  destruct (Response.Close resp); reflexivity.
Qed.

Lemma aliStreamHandler_result resp frames c :
  fst (aliStreamHandler errorWrapper setEventStreamHeaders Unmarshal resp frames c)
    = match Response.Close resp with
      | Some err =>
          (Some (errorWrapper err "close_response_body_failed"
                   Go.StatusInternalServerError), None)
      | None =>
          (None,
           Some (usage (fst (fold_left (onData Unmarshal) frames
                               (mkStreamState Usage.zero "",
                                setEventStreamHeaders c)))))
      end.
Proof.
  unfold aliStreamHandler, onStop.
  destruct (fold_left _ frames _) as [s c1].
  destruct (Response.Close resp); reflexivity.
Qed.

Lemma emitted_app c c' evs :
  Context.Rendered c' = Context.Rendered c ++ evs -> emitted c c' = evs.
Proof.
  intros H. unfold emitted. rewrite H.
  rewrite skipn_app, skipn_all, Nat.sub_diag. reflexivity.
Qed.

(** The events of one call: a chunk per decodable frame, then the
    sentinel. *)
Lemma aliStreamHandler_emitted resp frames c :
  exists chunks,
    emitted (setEventStreamHeaders c)
      (snd (aliStreamHandler errorWrapper setEventStreamHeaders Unmarshal resp frames c))
      = chunks ++ [DoneEvent]
    /\ Forall is_chunk chunks
    /\ List.length chunks = List.length (filter (decodes Unmarshal) frames)
    /\ (forall replies,
          Forall2 (fun f r => Unmarshal (Payload f) = Ok r) frames replies ->
          deltas chunks = trimmed "" (map text_of replies)).
Proof.
  destruct (fold_onData_spec frames (mkStreamState Usage.zero "")
              (setEventStreamHeaders c)) as (evs & Hr & Hch & Hlen & Hd).
  exists evs. split; [|auto].
  apply emitted_app. rewrite aliStreamHandler_context.
  cbn [Context.Render Context.Rendered]. rewrite Hr. now rewrite <- app_assoc.
Qed.

Lemma deltas_app_done chunks : deltas (chunks ++ [DoneEvent]) = deltas chunks.
Proof.
  unfold deltas. rewrite flat_map_app. cbn [flat_map]. now rewrite !app_nil_r.
Qed.

End StreamProperties.

(* --------------------------------------------------------------------- *)
(** *** C1: delta reconstruction *)
(* --------------------------------------------------------------------- *)

(** C1: for every vendor stream whose frames all decode and whose cumulative
    output texts S1 .. Sk each are a prefix of the next, [aliStreamHandler]
    emits one delta per frame, namely the frame's cumulative text with the
    previously emitted cumulative text removed as a prefix (nothing before
    the first frame), and the concatenation of the emitted deltas is Sk. *)
Theorem C1_delta_reconstruction :
  forall errorWrapper setEventStreamHeaders Unmarshal resp frames replies c,
  Forall2 (fun frame r => Unmarshal (Payload frame) = Ok r) frames replies ->
  prefix_chain (map text_of replies) ->
  let c' := snd (aliStreamHandler errorWrapper setEventStreamHeaders Unmarshal
                   resp frames c) in
  let ds := deltas (emitted (setEventStreamHeaders c) c') in
  ds = trimmed "" (map text_of replies)
  /\ List.length ds = List.length frames
  /\ concat_all ds = last (map text_of replies) "".
Proof.
  intros ew hdrs U resp frames replies c Hdec Hchain c' ds. subst c' ds.
  destruct (aliStreamHandler_emitted ew hdrs U resp frames c)
    as (chunks & Hem & _ & _ & Hd).
  rewrite Hem, deltas_app_done, (Hd replies Hdec).
  split; [reflexivity|]. split.
  - rewrite trimmed_length, length_map.
    symmetry. exact (Forall2_length Hdec).
  - exact (trimmed_concat _ "" (prefix_chain_from_empty _ Hchain)).
Qed.

Lemma C1_delta_reconstruction_witness :
  Forall2 (fun frame r => sample_Unmarshal (Payload frame) = Ok r) scenario_B
    scenario_B_replies
  /\ prefix_chain (map text_of scenario_B_replies)
  /\ deltas (emitted (sample_setEventStreamHeaders freshContext)
               (snd (aliStreamHandler sample_errorWrapper
                       sample_setEventStreamHeaders sample_Unmarshal
                       clean_close scenario_B freshContext)))
       = ["Hel"; "lo"; "!"]
  /\ concat_all ["Hel"; "lo"; "!"] = "Hello!".
Proof.
  assert (Hdec : Forall2 (fun frame r => sample_Unmarshal (Payload frame) = Ok r)
                   scenario_B scenario_B_replies)
    by (repeat constructor).
  assert (Hchain : prefix_chain (map text_of scenario_B_replies))
    by (repeat split).
  split; [exact Hdec|]. split; [exact Hchain|].
  destruct (C1_delta_reconstruction sample_errorWrapper
              sample_setEventStreamHeaders sample_Unmarshal clean_close
              scenario_B _ freshContext Hdec Hchain) as (Hds & _ & _).
  split; [exact Hds | reflexivity].
Defined.

(** Scenario B: the deltas, the finish reasons and the wire text of the
    last event. *)
Example scenario_B_stream :
  let events :=
    emitted (sample_setEventStreamHeaders freshContext)
      (snd (aliStreamHandler sample_errorWrapper sample_setEventStreamHeaders
              sample_Unmarshal clean_close scenario_B freshContext)) in
  deltas events = ["Hel"; "lo"; "!"]
  /\ map (fun e => match e with
                   | ChunkEvent r => finishReasonOf r
                   | DoneEvent => None
                   end) events
     = [None; None; Some "stop"; None]
  /\ map (Data sample_Marshal_chunk) events
     = ["data: Hel"; "data: lo"; "data: !"; "data: [DONE]"].
Proof. repeat split. Qed.

(* --------------------------------------------------------------------- *)
(** *** C6: bad frames and the end of the stream *)
(* --------------------------------------------------------------------- *)

(** C6, as stated, fails when closing the vendor body fails: the sentinel
    has been emitted, but the handler returns the
    [close_response_body_failed] error and no usage. *)
Lemma C6_close_failure_returns_error :
  emitted (sample_setEventStreamHeaders freshContext)
    (snd (aliStreamHandler sample_errorWrapper sample_setEventStreamHeaders
            sample_Unmarshal broken_close [] freshContext))
    = [DoneEvent]
  /\ fst (aliStreamHandler sample_errorWrapper sample_setEventStreamHeaders
            sample_Unmarshal broken_close [] freshContext)
     = (Some (sample_errorWrapper (Go.other_error "connection reset")
                "close_response_body_failed" 500%Z), None).
Proof. split; reflexivity. Qed.

(** C6 (amended): in [aliStreamHandler] a frame whose payload fails to
    decode is skipped without aborting the stream: the call behaves as if
    the frame had not been sent, so the frames after it are processed (one
    chunk per decodable frame); when the producer signals exhaustion the
    handler emits the terminal [data: [DONE]] event last and stops; it then
    returns the accumulated usage with no error, provided closing the vendor
    response body succeeds. *)
Theorem C6_stream_skip_and_done :
  forall errorWrapper setEventStreamHeaders Unmarshal Marshal resp frames c,
  let run := aliStreamHandler errorWrapper setEventStreamHeaders Unmarshal resp in
  let c0 := setEventStreamHeaders c in
  (forall pre bad post err,
     frames = pre ++ bad :: post ->
     Unmarshal (Payload bad) = Failed err ->
     run frames c = run (pre ++ post) c)
  /\ (exists chunks,
        emitted c0 (snd (run frames c)) = chunks ++ [DoneEvent]
        /\ Forall is_chunk chunks
        /\ List.length chunks = List.length (filter (decodes Unmarshal) frames))
  /\ Data Marshal DoneEvent = "data: [DONE]"
  /\ (Response.Close resp = None ->
      fst (run frames c)
      = (None,
         Some (usage (fst (fold_left (onData Unmarshal) frames
                             (mkStreamState Usage.zero "", c0))))))
  /\ (forall err,
        Response.Close resp = Some err ->
        fst (run frames c)
        = (Some (errorWrapper err "close_response_body_failed"
                   Go.StatusInternalServerError), None)).
Proof.
  intros ew hdrs U M resp frames c run c0. subst run c0.
  split; [|split; [|split; [reflexivity|split]]].
  - intros pre bad post err -> Hbad. unfold aliStreamHandler.
    now rewrite (fold_onData_skip U pre bad post _ err Hbad).
  - destruct (aliStreamHandler_emitted ew hdrs U resp frames c)
      as (chunks & Hem & Hch & Hlen & _).
    exists chunks. repeat split; auto.
  - intros Hclose. now rewrite aliStreamHandler_result, Hclose.
  - intros err Hclose. now rewrite aliStreamHandler_result, Hclose.
Qed.

Lemma C6_stream_skip_and_done_witness :
  sample_Unmarshal "?" = Failed (Go.other_error "unexpected end of JSON input")
  /\ Response.Close clean_close = None
  /\ aliStreamHandler sample_errorWrapper sample_setEventStreamHeaders
       sample_Unmarshal clean_close scenario_B_glitch freshContext
     = aliStreamHandler sample_errorWrapper sample_setEventStreamHeaders
         sample_Unmarshal clean_close scenario_B freshContext
  /\ fst (aliStreamHandler sample_errorWrapper sample_setEventStreamHeaders
            sample_Unmarshal clean_close scenario_B_glitch freshContext)
     = (None, Some (Usage.mk 7%Z 3%Z 10%Z)).
Proof.
  split; [reflexivity|]. split; [reflexivity|].
  destruct (C6_stream_skip_and_done sample_errorWrapper
              sample_setEventStreamHeaders sample_Unmarshal sample_Marshal_chunk
              clean_close scenario_B_glitch freshContext)
    as (Hskip & _ & _ & Hres & _).
  split.
  - exact (Hskip [mkReceived 1700000000%Z "Hel"] (mkReceived 1700000001%Z "?")
             [mkReceived 1700000001%Z "Hello"; mkReceived 1700000002%Z "Hello!"]
             _ eq_refl eq_refl).
  - exact (Hres eq_refl).
Defined.

(* --------------------------------------------------------------------- *)
(** *** C7: the usage accumulator *)
(* --------------------------------------------------------------------- *)

(** The guard of the update is the output-token count alone. *)
Lemma updateUsage_exact (u : AliUsage.t) (acc : Usage.t) :
  (AliUsage.OutputTokens u <> 0%Z ->
   updateUsage u acc
     = Usage.mk (AliUsage.InputTokens u) (AliUsage.OutputTokens u)
         (Go.add (AliUsage.InputTokens u) (AliUsage.OutputTokens u)))
  /\ (AliUsage.OutputTokens u = 0%Z -> updateUsage u acc = acc).
Proof.
  unfold updateUsage. split; intros H.
  - apply Z.eqb_neq in H. now rewrite H.
  - now rewrite H.
Qed.

(** C7, as stated, fails on a frame whose usage reports input tokens but
    no output tokens: its usage fields are not zero, yet the running usage
    is left as it was. *)
Lemma C7_input_only_usage_is_ignored :
  input_only_Unmarshal "Hel" = Ok input_only_reply
  /\ AliUsage.InputTokens (AliChatResponse.Usage input_only_reply) = 5%Z
  /\ AliUsage.OutputTokens (AliChatResponse.Usage input_only_reply) = 0%Z
  /\ AliUsage.TotalTokens (AliChatResponse.Usage input_only_reply) = 5%Z
  /\ usage (fst (onData input_only_Unmarshal
                   (mkStreamState (Usage.mk 1%Z 1%Z 2%Z) "", freshContext)
                   (mkReceived 1700000000%Z "Hel")))
     = Usage.mk 1%Z 1%Z 2%Z.
Proof. repeat split. Qed.

(** C7 (amended): when the callback of [aliStreamHandler] handles a frame
    that decodes, a non-zero output-token count makes it overwrite the
    running usage with the frame's input tokens, its output tokens, and
    their ([int]) sum as total, whatever the input-token count; a zero
    output-token count leaves the running usage as it was, whatever the
    input-token count. *)
Theorem C7_usage_guard : forall Unmarshal s c frame r,
  Unmarshal (Payload frame) = Ok r ->
  let u := AliChatResponse.Usage r in
  let s' := fst (onData Unmarshal (s, c) frame) in
  (AliUsage.OutputTokens u <> 0%Z ->
     usage s' = Usage.mk (AliUsage.InputTokens u) (AliUsage.OutputTokens u)
                  (Go.add (AliUsage.InputTokens u) (AliUsage.OutputTokens u)))
  /\ (AliUsage.OutputTokens u = 0%Z -> usage s' = usage s).
Proof.
  intros U s c frame r Hdec u s'. subst u s'.
  rewrite (onData_decoded U s c frame r Hdec). cbn [fst usage].
  exact (updateUsage_exact (AliChatResponse.Usage r) (usage s)).
Qed.

Lemma C7_usage_guard_witness :
  sample_Unmarshal "Hello!" = Ok (reply "Hello!" "stop" 7%Z 3%Z)
  /\ usage (fst (onData sample_Unmarshal
                   (mkStreamState (Usage.mk 1%Z 1%Z 2%Z) "Hello", freshContext)
                   (mkReceived 1700000002%Z "Hello!")))
     = Usage.mk 7%Z 3%Z 10%Z
  /\ usage (fst (onData input_only_Unmarshal
                   (mkStreamState (Usage.mk 1%Z 1%Z 2%Z) "", freshContext)
                   (mkReceived 1700000000%Z "Hel")))
     = Usage.mk 1%Z 1%Z 2%Z.
Proof.
  split; [reflexivity|]. split.
  - destruct (C7_usage_guard sample_Unmarshal
                (mkStreamState (Usage.mk 1%Z 1%Z 2%Z) "Hello") freshContext
                (mkReceived 1700000002%Z "Hello!") _ eq_refl) as [Hnz _].
    apply Hnz. discriminate.
  - destruct (C7_usage_guard input_only_Unmarshal
                (mkStreamState (Usage.mk 1%Z 1%Z 2%Z) "") freshContext
                (mkReceived 1700000000%Z "Hel") _ eq_refl) as [_ Hz].
    apply Hz. reflexivity.
Defined.

(* --------------------------------------------------------------------- *)
(** *** C10: the finish reason of a chunk *)
(* --------------------------------------------------------------------- *)

(** C10: [streamResponseAli2OpenAI] leaves the chunk's finish reason unset
    exactly when the vendor's finish reason is the literal "null"; for any
    other value, the empty string of a frame without the field included,
    the chunk carries that value as a set finish reason. *)
Theorem C10_finish_reason : forall created aliResponse,
  let fr := AliOutput.FinishReason (AliChatResponse.Output aliResponse) in
  let chunk := streamResponseAli2OpenAI created aliResponse in
  List.length (ChatCompletionsStreamResponse.Choices chunk) = 1
  /\ (finishReasonOf chunk = None <-> fr = "null")
  /\ (fr <> "null" -> finishReasonOf chunk = Some fr)
  /\ (fr = "" -> finishReasonOf chunk = Some "").
Proof.
  intros created r fr chunk. subst fr chunk.
  unfold finishReasonOf, streamResponseAli2OpenAI.
  cbn [ChatCompletionsStreamResponse.Choices hd
       ChatCompletionsStreamResponseChoice.FinishReason List.length].
  destruct (String.eqb_spec
              (AliOutput.FinishReason (AliChatResponse.Output r)) "null")
    as [He|Hne]; cbn [negb].
  - repeat split; congruence.
  - repeat split; congruence.
Qed.

(* ===================================================================== *)
(** ** The embedding translator *)
(* ===================================================================== *)

Lemma fold_left_append_map (A B : Type) (f : A -> B) : forall l acc,
  fold_left (fun data item => data ++ [f item]) l acc = acc ++ map f l.
Proof.
  induction l as [|x l IH]; intros acc; simpl.
  - now rewrite app_nil_r.
  - rewrite IH, <- app_assoc. reflexivity.
Qed.

Lemma embedding_Data response :
  OpenAIEmbeddingResponse.Data (embeddingResponseAli2OpenAI response)
    = map embeddingItem (AliEmbeddingResponse.Embeddings response).
Proof.
  unfold embeddingResponseAli2OpenAI. cbn [OpenAIEmbeddingResponse.Data].
  now rewrite fold_left_append_map.
Qed.

(* --------------------------------------------------------------------- *)
(** *** C3: embedding index stability *)
(* --------------------------------------------------------------------- *)

(** C3, as stated, fails on the reply of scenario C: the canonical list
    keeps the order of the response array, so the vector [.1, .2] (reported
    index 1) is at position 0 and the vector [.9] (reported index 0) at
    position 1. *)
Lemma C3_scenario_C_keeps_array_order :
  OpenAIEmbeddingResponse.Data (embeddingResponseAli2OpenAI scenario_C)
    = [OpenAIEmbeddingResponseItem.mk "embedding" 1%Z vector_1_2;
       OpenAIEmbeddingResponseItem.mk "embedding" 0%Z vector_9]
  /\ option_map OpenAIEmbeddingResponseItem.Embedding
       (nth_error (OpenAIEmbeddingResponse.Data
                     (embeddingResponseAli2OpenAI scenario_C)) 0)
     = Some vector_1_2
  /\ (option_map OpenAIEmbeddingResponseItem.Embedding
        (nth_error (OpenAIEmbeddingResponse.Data
                      (embeddingResponseAli2OpenAI scenario_C)) 0)
      = Some vector_9 -> False).
Proof.
  split; [reflexivity|]. split; [reflexivity|].
  cbn. unfold vector_1_2, vector_9. intros H. discriminate H.
Qed.

(** C3 (amended): for every vendor embedding reply,
    [embeddingResponseAli2OpenAI] keeps the order of the returned array: the
    item at each position of the canonical list carries the vector of the
    vendor item at that position together with its vendor-reported
    text_index in the item's index field.  Reordering the returned array
    reorders the canonical list the same way and changes no item, so which
    vector goes with which index does not depend on the array order.  In
    particular the reply of scenario C yields the vector [.1, .2] with index
    1 followed by the vector [.9] with index 0. *)
Theorem C3_embedding_index : forall response,
  OpenAIEmbeddingResponse.Data (embeddingResponseAli2OpenAI response)
    = map embeddingItem (AliEmbeddingResponse.Embeddings response)
  /\ (forall j item,
        nth_error (AliEmbeddingResponse.Embeddings response) j = Some item ->
        nth_error (OpenAIEmbeddingResponse.Data
                     (embeddingResponseAli2OpenAI response)) j
          = Some (OpenAIEmbeddingResponseItem.mk "embedding"
                    (AliEmbedding.TextIndex item) (AliEmbedding.Embedding item)))
  /\ (forall response',
        Permutation (AliEmbeddingResponse.Embeddings response)
                    (AliEmbeddingResponse.Embeddings response') ->
        Permutation
          (OpenAIEmbeddingResponse.Data (embeddingResponseAli2OpenAI response))
          (OpenAIEmbeddingResponse.Data (embeddingResponseAli2OpenAI response')))
  /\ OpenAIEmbeddingResponse.Data (embeddingResponseAli2OpenAI scenario_C)
     = [OpenAIEmbeddingResponseItem.mk "embedding" 1%Z vector_1_2;
        OpenAIEmbeddingResponseItem.mk "embedding" 0%Z vector_9].
Proof.
  intros response. rewrite embedding_Data.
  split; [reflexivity|]. split.
  - intros j item H. now rewrite (map_nth_error embeddingItem j _ H).
  - split; [|reflexivity].
    intros response' H. rewrite embedding_Data. now apply Permutation_map.
Qed.

(* ===================================================================== *)
(** ** The unary chat handler *)
(* ===================================================================== *)

(* --------------------------------------------------------------------- *)
(** *** C5: vendor-reported errors *)
(* --------------------------------------------------------------------- *)

(** C5: for every unary vendor reply that decodes with a non-empty error
    code, [aliHandler] returns the canonical error carrying the vendor's
    message, its code as both type and code, its request id as param and the
    HTTP status of the vendor response, returns no usage, and leaves the
    client untouched: no header, status or body is written. *)
Theorem C5_vendor_error :
  forall errorWrapper Unmarshal Marshal created resp c responseBody aliResponse,
  Response.Body resp = Ok responseBody ->
  Response.Close resp = None ->
  Unmarshal responseBody = Ok aliResponse ->
  AliError.Code (AliChatResponse.Error aliResponse) <> "" ->
  aliHandler errorWrapper Unmarshal Marshal created resp c
    = ((Some (OpenAIErrorWithStatusCode.mk
                (OpenAIError.mk
                   (AliError.Message (AliChatResponse.Error aliResponse))
                   (AliError.Code (AliChatResponse.Error aliResponse))
                   (AliError.RequestId (AliChatResponse.Error aliResponse))
                   (AliError.Code (AliChatResponse.Error aliResponse)))
                (Response.StatusCode resp)),
        None),
       c).
Proof.
  intros ew U M created resp c body r Hbody Hclose Hdec Hcode.
  unfold aliHandler. rewrite Hbody, Hclose, Hdec.
  apply String.eqb_neq in Hcode. rewrite Hcode. reflexivity.
Qed.

Lemma C5_vendor_error_witness :
  Response.Body scenario_D = Ok "E"
  /\ Response.Close scenario_D = None
  /\ sample_Unmarshal "E" = Ok scenario_D_reply
  /\ AliError.Code (AliChatResponse.Error scenario_D_reply) = "InvalidParameter"
  /\ aliHandler sample_errorWrapper sample_Unmarshal sample_Marshal_text
       1700000000%Z scenario_D freshContext
     = ((Some (OpenAIErrorWithStatusCode.mk
                 (OpenAIError.mk "url error" "InvalidParameter" "req-9"
                    "InvalidParameter")
                 400%Z),
         None),
        freshContext).
Proof.
  do 4 (split; [reflexivity|]).
  apply (C5_vendor_error sample_errorWrapper sample_Unmarshal
           sample_Marshal_text 1700000000%Z scenario_D freshContext "E"
           scenario_D_reply);
    try reflexivity.
  discriminate.
Defined.

(* ===================================================================== *)
(** ** The text-to-speech relay *)
(* ===================================================================== *)

Lemma Write_ok (p : list byte) (c : Context.t) :
  Context.Failure c = None -> Context.Write p c = (accepted [p] c, None).
Proof.
  intros H. unfold Context.Write, accepted. now rewrite H.
Qed.

Lemma accepted_accepted ps qs c :
  accepted qs (accepted ps c) = accepted (ps ++ qs) c.
Proof. unfold accepted. cbn. now rewrite <- app_assoc. Qed.

Lemma accepted_nil c : accepted [] c = c.
Proof. destruct c. unfold accepted. cbn. now rewrite app_nil_r. Qed.

(** With a client that keeps accepting, the chunking loop writes exactly
    the slices, whatever was written before. *)
Lemma writeChunks_ok : forall fuel audioData i c,
  Context.Failure c = None ->
  writeChunks fuel audioData i c = (accepted (slices fuel audioData i) c, None).
Proof.
  induction fuel as [|fuel IH]; intros audioData i c Hc.
  - cbn [writeChunks slices]. now rewrite accepted_nil.
  - cbn [writeChunks slices].
    destruct (i <? List.length audioData)%nat; [|now rewrite accepted_nil].
    rewrite Write_ok by exact Hc.
    rewrite IH by exact Hc. now rewrite accepted_accepted.
Qed.

Lemma chunksOf_slices audioData :
  chunksOf audioData = slices (List.length audioData) audioData 0.
Proof.
  unfold chunksOf, writeAudio. now rewrite writeChunks_ok.
Qed.

(** One iteration takes [audioData[i : min(i+chunkSize, len)]], which is the
    first [chunkSize] bytes of what is left. *)
Lemma slices_step fuel audioData i :
  i < List.length audioData ->
  slices (S fuel) audioData i
    = firstn chunkSize (skipn i audioData) :: slices fuel audioData (i + chunkSize).
Proof.
  intros Hi. cbn [slices].
  destruct (Nat.ltb_spec i (List.length audioData)) as [_|]; [|lia].
  f_equal.
  destruct (Nat.ltb_spec (List.length audioData) (i + chunkSize)) as [Hlt|Hge].
  - rewrite !firstn_all2; try reflexivity; rewrite length_skipn; lia.
  - f_equal. lia.
Qed.

Lemma slices_done fuel audioData i :
  List.length audioData <= i -> slices fuel audioData i = [].
Proof.
  intros Hi. destruct fuel; [reflexivity|]. cbn [slices].
  destruct (Nat.ltb_spec i (List.length audioData)); [lia | reflexivity].
Qed.

Lemma chunkSize_pos : 0 < chunkSize.
Proof. unfold chunkSize. lia. Qed.

(** With enough fuel the slices, put end to end, are the bytes from [i]
    on. *)
Lemma slices_concat : forall fuel audioData i,
  List.length audioData - i <= fuel ->
  List.concat (slices fuel audioData i) = skipn i audioData.
Proof.
  pose proof chunkSize_pos as Hpos.
  induction fuel as [|fuel IH]; intros audioData i Hfuel.
  - cbn [slices List.concat]. rewrite skipn_all2 by lia. reflexivity.
  - destruct (Nat.lt_ge_cases i (List.length audioData)) as [Hi|Hi].
    + rewrite slices_step by exact Hi. cbn [List.concat].
      rewrite IH by lia.
      rewrite (Nat.add_comm i chunkSize), <- skipn_skipn.
      apply firstn_skipn.
    + rewrite slices_done by exact Hi. rewrite skipn_all2 by lia. reflexivity.
Qed.

Lemma slices_sizes : forall fuel audioData i,
  Forall (fun chunk => 1 <= List.length chunk <= chunkSize) (slices fuel audioData i).
Proof.
  induction fuel as [|fuel IH]; intros audioData i; [constructor|].
  destruct (Nat.lt_ge_cases i (List.length audioData)) as [Hi|Hi].
  - rewrite slices_step by exact Hi. constructor; [|apply IH].
    cbv beta. rewrite length_firstn, length_skipn.
    pose proof chunkSize_pos. lia.
  - rewrite slices_done by exact Hi. constructor.
Qed.

Lemma slices_nth : forall fuel audioData i k chunk,
  nth_error (slices fuel audioData i) k = Some chunk ->
  chunk = firstn chunkSize (skipn (i + k * chunkSize) audioData).
Proof.
  induction fuel as [|fuel IH]; intros audioData i k chunk H.
  - destruct k; discriminate.
  - destruct (Nat.lt_ge_cases i (List.length audioData)) as [Hi|Hi].
    + rewrite slices_step in H by exact Hi.
      destruct k as [|k]; cbn [nth_error] in H.
      * replace (i + 0 * chunkSize) with i by lia. congruence.
      * apply IH in H. rewrite H. f_equal. f_equal. unfold chunkSize. lia.
    + rewrite slices_done in H by exact Hi. destruct k; discriminate.
Qed.

(** The chunking of one binary frame. *)
Lemma chunksOf_facts audioData :
  List.concat (chunksOf audioData) = audioData
  /\ Forall (fun chunk => 1 <= List.length chunk <= 1024) (chunksOf audioData)
  /\ (forall k chunk,
        nth_error (chunksOf audioData) k = Some chunk ->
        chunk = firstn 1024 (skipn (k * 1024) audioData)).
Proof.
  rewrite chunksOf_slices. split; [|split].
  - rewrite slices_concat by lia. reflexivity.
  - apply slices_sizes.
  - intros k chunk H. apply slices_nth in H. exact H.
Qed.

Lemma concat_flat_map_chunksOf frames :
  List.concat (flat_map chunksOf frames) = List.concat frames.
Proof.
  induction frames as [|f frames IH]; [reflexivity|].
  cbn [flat_map List.concat]. rewrite concat_app, IH.
  now rewrite (proj1 (chunksOf_facts f)).
Qed.

Section RelayProperties.

Variable errorWrapper : Go.error -> string -> Go.int -> OpenAIErrorWithStatusCode.t.
Variable Unmarshal : list byte -> AliWSSMessage.t * option Go.error.

Lemma writeAudio_ok audioData c :
  Context.Failure c = None ->
  writeAudio audioData c = (accepted (chunksOf audioData) c, None).
Proof.
  intros Hc. unfold writeAudio.
  now rewrite writeChunks_ok, chunksOf_slices.
Qed.

(** Messages that are not completion frames are passed over; the binary
    ones leave their chunks with the client. *)
Lemma readLoop_keeps_reading : forall pre rest u c,
  Context.Failure c = None ->
  Forall (keeps_reading Unmarshal) pre ->
  readLoop errorWrapper Unmarshal (pre ++ rest) u c
    = readLoop errorWrapper Unmarshal rest u
        (accepted (flat_map chunksOf (binaryFrames pre)) c).
Proof.
  induction pre as [|r pre IH]; intros rest u c Hc Hpre.
  - cbn. now rewrite accepted_nil.
  - inversion Hpre as [|? ? Hr Hpre']; subst.
    destruct r as [messageType p|err]; [|destruct Hr].
    cbn [app readLoop]. unfold binaryFrames. cbn [flat_map].
    fold (binaryFrames pre).
    destruct (Z.eqb_spec messageType TextMessage) as [Ht|Ht].
    + cbn in Hr. specialize (Hr Ht). apply String.eqb_neq in Hr.
      rewrite Hr. cbn [app]. now apply IH.
    + destruct (Z.eqb_spec messageType BinaryMessage) as [Hb|Hb].
      * rewrite (writeAudio_ok p c Hc).
        rewrite IH by assumption.
        cbn [app flat_map]. now rewrite accepted_accepted.
      * cbn [app]. now apply IH.
Qed.


End RelayProperties.

(** *** Writes that succeed and the write that fails *)

Lemma delivered_nil c : delivered [] c = c.
Proof.
  destruct c as [h st w r [[n e]|]]; unfold delivered; cbn;
    rewrite app_nil_r, ?Nat.sub_0_r; reflexivity.
Qed.

Lemma delivered_delivered ps qs c :
  delivered qs (delivered ps c) = delivered (ps ++ qs) c.
Proof.
  unfold delivered. cbn. rewrite <- app_assoc, length_app.
  destruct (Context.Failure c) as [[n e]|]; [|reflexivity].
  now rewrite Nat.sub_add_distr.
Qed.

Lemma delivered_accepted ps c :
  Context.Failure c = None -> delivered ps c = accepted ps c.
Proof. intros H. unfold delivered, accepted. now rewrite H. Qed.

Lemma delivered_step chunk ps c m e :
  Context.Failure c = Some (S m, e) ->
  delivered ps
    (Context.mk (Context.Header c) (Context.Status c)
       (Context.Written c ++ [chunk]) (Context.Rendered c) (Some (m, e)))
  = delivered (chunk :: ps) c.
Proof.
  intros H. unfold delivered. cbn. rewrite H, <- app_assoc. reflexivity.
Qed.

(** With a client that fails after [n] more writes, the chunking loop
    writes the first [n] slices and stops with the client's error, or writes
    them all when there are no more than [n]. *)
Lemma writeChunks_budget : forall fuel audioData i c n e,
  Context.Failure c = Some (n, e) ->
  writeChunks fuel audioData i c
    = if (n <? List.length (slices fuel audioData i))%nat
      then (delivered (firstn n (slices fuel audioData i)) c, Some e)
      else (delivered (slices fuel audioData i) c, None).
Proof.
  induction fuel as [|fuel IH]; intros audioData i c n e Hc.
  - cbn. now rewrite delivered_nil.
  - cbn [writeChunks slices].
    destruct (i <? List.length audioData)%nat;
      [|cbn; now rewrite delivered_nil].
    set (chunk := firstn _ (skipn i audioData)).
    unfold Context.Write. rewrite Hc.
    destruct n as [|m].
    + cbn. now rewrite delivered_nil.
    + rewrite IH with (n := m) (e := e) by reflexivity.
      cbn [List.length firstn].
      change (S m <? S (List.length (slices fuel audioData (i + chunkSize))))%nat
        with (m <? List.length (slices fuel audioData (i + chunkSize)))%nat.
      destruct (m <? List.length (slices fuel audioData (i + chunkSize)))%nat;
        now rewrite (delivered_step chunk _ c m e Hc).
Qed.

Lemma writeAudio_delivers audioData c :
  accepts_writes (List.length (chunksOf audioData)) c ->
  writeAudio audioData c = (delivered (chunksOf audioData) c, None).
Proof.
  unfold accepts_writes. intros H.
  destruct (Context.Failure c) as [[n e]|] eqn:Hc.
  - unfold writeAudio. rewrite (writeChunks_budget _ _ _ _ n e Hc).
    rewrite <- chunksOf_slices.
    destruct (Nat.ltb_spec n (List.length (chunksOf audioData))); [lia|].
    reflexivity.
  - rewrite (writeAudio_ok audioData c Hc). now rewrite delivered_accepted.
Qed.

Lemma writeAudio_fails audioData c n e :
  Context.Failure c = Some (n, e) ->
  n < List.length (chunksOf audioData) ->
  writeAudio audioData c = (delivered (firstn n (chunksOf audioData)) c, Some e).
Proof.
  intros Hc Hn. unfold writeAudio.
  rewrite (writeChunks_budget _ _ _ _ n e Hc), <- chunksOf_slices.
  destruct (Nat.ltb_spec n (List.length (chunksOf audioData))); [reflexivity|lia].
Qed.

Lemma accepts_writes_delivered ps k c :
  accepts_writes (List.length ps + k) c -> accepts_writes k (delivered ps c).
Proof.
  unfold accepts_writes, delivered. cbn.
  destruct (Context.Failure c) as [[n e]|]; [lia | auto].
Qed.

Lemma accepts_writes_le k k' c :
  k <= k' -> accepts_writes k' c -> accepts_writes k c.
Proof.
  unfold accepts_writes. destruct (Context.Failure c) as [[n e]|]; [lia | auto].
Qed.

Section RelayWrites.

Variable errorWrapper : Go.error -> string -> Go.int -> OpenAIErrorWithStatusCode.t.
Variable Unmarshal : list byte -> AliWSSMessage.t * option Go.error.

(** As long as the client lets the writes through, messages that are not
    completion frames are passed over and the binary ones leave their
    chunks with the client. *)
Lemma readLoop_delivers : forall pre rest u c,
  Forall (keeps_reading Unmarshal) pre ->
  accepts_writes (List.length (flat_map chunksOf (binaryFrames pre))) c ->
  readLoop errorWrapper Unmarshal (pre ++ rest) u c
    = readLoop errorWrapper Unmarshal rest u
        (delivered (flat_map chunksOf (binaryFrames pre)) c).
Proof.
  induction pre as [|r pre IH]; intros rest u c Hpre Hc.
  - cbn. now rewrite delivered_nil.
  - inversion Hpre as [|? ? Hr Hpre']; subst.
    destruct r as [messageType p|err]; [|destruct Hr].
    cbn [app readLoop]. unfold binaryFrames in *. cbn [flat_map] in *.
    fold (binaryFrames pre) in *.
    destruct (Z.eqb_spec messageType TextMessage) as [Ht|Ht].
    + cbn in Hr. specialize (Hr Ht). apply String.eqb_neq in Hr.
      rewrite Hr. cbn [app] in *. now apply IH.
    + destruct (Z.eqb_spec messageType BinaryMessage) as [Hb|Hb].
      * cbn [app flat_map] in *. rewrite length_app in Hc.
        rewrite (writeAudio_delivers p c)
          by (apply (accepts_writes_le _ _ c (Nat.le_add_r _ _) Hc)).
        rewrite IH by (assumption || now apply accepts_writes_delivered).
        now rewrite delivered_delivered.
      * cbn [app] in *. now apply IH.
Qed.

(** The write that fails ends the call: the chunks before it are written,
    the error is the client's, tagged [write_audio_failed], and no usage is
    returned. *)
Lemma readLoop_write_fails : forall pre rest u c n e,
  Forall (keeps_reading Unmarshal) pre ->
  Context.Failure c = Some (n, e) ->
  n < List.length (flat_map chunksOf (binaryFrames pre)) ->
  readLoop errorWrapper Unmarshal (pre ++ rest) u c
    = Some ((Some (errorWrapper e "write_audio_failed"
                     Go.StatusInternalServerError), None),
            delivered (firstn n (flat_map chunksOf (binaryFrames pre))) c).
Proof.
  induction pre as [|r pre IH]; intros rest u c n e Hpre Hc Hn.
  - cbn in Hn. lia.
  - inversion Hpre as [|? ? Hr Hpre']; subst.
    destruct r as [messageType p|err]; [|destruct Hr].
    cbn [app readLoop]. unfold binaryFrames in *. cbn [flat_map] in *.
    fold (binaryFrames pre) in *.
    destruct (Z.eqb_spec messageType TextMessage) as [Ht|Ht].
    + cbn in Hr. specialize (Hr Ht). apply String.eqb_neq in Hr.
      rewrite Hr. cbn [app] in *. now apply IH.
    + destruct (Z.eqb_spec messageType BinaryMessage) as [Hb|Hb].
      * cbn [app flat_map] in *. rewrite length_app in Hn.
        rewrite firstn_app.
        destruct (Nat.lt_ge_cases n (List.length (chunksOf p))) as [Hlt|Hge].
        -- rewrite (writeAudio_fails p c n e Hc Hlt).
           replace (n - List.length (chunksOf p)) with 0 by lia.
           cbn [firstn]. now rewrite app_nil_r.
        -- rewrite (writeAudio_delivers p c)
             by (unfold accepts_writes; rewrite Hc; exact Hge).
           rewrite (IH rest u _ (n - List.length (chunksOf p)) e Hpre').
           ++ rewrite delivered_delivered.
              now rewrite (@firstn_all2 _ n (chunksOf p)) by lia.
           ++ unfold delivered. cbn. now rewrite Hc.
           ++ lia.
      * cbn [app] in *. now apply IH.
Qed.

End RelayWrites.

(* --------------------------------------------------------------------- *)
(** *** C8: byte fidelity *)
(* --------------------------------------------------------------------- *)

(** C8, as stated, fails when a write to the client fails: the relay has
    received a binary frame of three bytes, the client accepts none of them,
    and the call ends with the [write_audio_failed] error. *)
Lemma C8_failed_write_drops_bytes :
  binaryFrames (Conn.Reads one_frame_socket) = [["a"%byte; "b"%byte; "c"%byte]]
  /\ aliTTSHandler sample_errorWrapper sample_Unmarshal_WSS one_frame_socket
       goneContext
     = Some ((Some (sample_errorWrapper (Go.other_error "broken pipe")
                      "write_audio_failed" 500%Z), None),
             goneContext)
  /\ List.concat (Context.Written goneContext) = [].
Proof. repeat split. Qed.

(** C8 (amended): for every sequence of messages the relay receives before
    the one that ends the call, as long as every write to the client
    succeeds, the bytes written to the client are the concatenation of the
    binary frames' bytes: each frame is split into successive chunks of at
    most 1024 bytes (chunk k is bytes 1024k .. 1024k+1023 of the frame), in
    order, none empty, with no byte duplicated, dropped or changed; the call
    then goes on with the remaining messages, and if the next one is the
    completion frame it returns with exactly these bytes written.  A write
    that fails ends the call with the [write_audio_failed] error and no
    usage, the chunks before it written and nothing after. *)
Theorem C8_byte_fidelity : forall errorWrapper Unmarshal conn pre rest c,
  Conn.DialErr conn = None ->
  Conn.WriteJSONErr conn = None ->
  Conn.Reads conn = pre ++ rest ->
  Forall (keeps_reading Unmarshal) pre ->
  let chunks := flat_map chunksOf (binaryFrames pre) in
  (accepts_writes (List.length chunks) c ->
     aliTTSHandler errorWrapper Unmarshal conn c
       = readLoop errorWrapper Unmarshal rest Usage.zero (delivered chunks c)
     /\ List.concat (Context.Written (delivered chunks c))
        = List.concat (Context.Written c) ++ List.concat (binaryFrames pre)
     /\ (forall data tail,
           rest = ReadMsg TextMessage data :: tail ->
           AliWSSMessage.Event (fst (Unmarshal data)) = "task-finished" ->
           aliTTSHandler errorWrapper Unmarshal conn c
             = Some ((None,
                      Some (Usage.mk 0%Z 0%Z
                              (AliWSSMessage.Characters (fst (Unmarshal data))))),
                     delivered chunks c)))
  /\ (forall audioData,
        List.concat (chunksOf audioData) = audioData
        /\ Forall (fun chunk => 1 <= List.length chunk <= 1024) (chunksOf audioData)
        /\ (forall k chunk,
              nth_error (chunksOf audioData) k = Some chunk ->
              chunk = firstn 1024 (skipn (k * 1024) audioData)))
  /\ (forall n e,
        Context.Failure c = Some (n, e) ->
        n < List.length chunks ->
        aliTTSHandler errorWrapper Unmarshal conn c
          = Some ((Some (errorWrapper e "write_audio_failed"
                           Go.StatusInternalServerError), None),
                  delivered (firstn n chunks) c)
        /\ Context.Written (delivered (firstn n chunks) c)
           = Context.Written c ++ firstn n chunks).
Proof.
  intros ew U conn pre rest c Hdial Hjson Hreads Hpre chunks. subst chunks.
  split; [|split; [exact chunksOf_facts|]].
  - intros Hc.
    assert (Hrun : aliTTSHandler ew U conn c
                   = readLoop ew U rest Usage.zero
                       (delivered (flat_map chunksOf (binaryFrames pre)) c)).
    { unfold aliTTSHandler. rewrite Hdial, Hjson, Hreads.
      now apply readLoop_delivers. }
    split; [exact Hrun|]. split.
    + unfold delivered. cbn [Context.Written].
      now rewrite concat_app, concat_flat_map_chunksOf.
    + intros data tail -> Hev. rewrite Hrun. cbn [readLoop].
      rewrite Z.eqb_refl. apply String.eqb_eq in Hev. now rewrite Hev.
  - intros n e Hc Hn. split; [|reflexivity].
    unfold aliTTSHandler. rewrite Hdial, Hjson, Hreads.
    now apply readLoop_write_fails.
Qed.

Lemma C8_byte_fidelity_witness :
  Forall (keeps_reading sample_Unmarshal_WSS) (firstn 3 (Conn.Reads full_socket))
  /\ accepts_writes 3 freshContext
  /\ map (@List.length byte)
       (Context.Written
          (delivered (flat_map chunksOf
                        (binaryFrames (firstn 3 (Conn.Reads full_socket))))
             freshContext))
     = [1024; 476; 2]
  /\ List.concat
       (Context.Written
          (delivered (flat_map chunksOf
                        (binaryFrames (firstn 3 (Conn.Reads full_socket))))
             freshContext))
     = List.concat (binaryFrames (firstn 3 (Conn.Reads full_socket)))
  /\ aliTTSHandler sample_errorWrapper sample_Unmarshal_WSS full_socket
       (Context.mk [] None [] [] (Some (1, Go.other_error "broken pipe")))
     = Some ((Some (sample_errorWrapper (Go.other_error "broken pipe")
                      "write_audio_failed" 500%Z), None),
             delivered
               (firstn 1 (flat_map chunksOf
                            (binaryFrames (firstn 3 (Conn.Reads full_socket)))))
               (Context.mk [] None [] []
                  (Some (1, Go.other_error "broken pipe")))).
Proof.
  assert (Hpre : Forall (keeps_reading sample_Unmarshal_WSS)
                   (firstn 3 (Conn.Reads full_socket))).
  { repeat constructor; intros H; discriminate. }
  split; [exact Hpre|]. split; [exact I|].
  split; [vm_compute; reflexivity|].
  split.
  - destruct (C8_byte_fidelity sample_errorWrapper sample_Unmarshal_WSS
                full_socket (firstn 3 (Conn.Reads full_socket))
                (skipn 3 (Conn.Reads full_socket)) freshContext
                eq_refl eq_refl eq_refl Hpre) as (Hok & _ & _).
    exact (proj1 (proj2 (Hok I))).
  - destruct (C8_byte_fidelity sample_errorWrapper sample_Unmarshal_WSS
                full_socket (firstn 3 (Conn.Reads full_socket))
                (skipn 3 (Conn.Reads full_socket))
                (Context.mk [] None [] [] (Some (1, Go.other_error "broken pipe")))
                eq_refl eq_refl eq_refl Hpre) as (_ & _ & Hfail).
    refine (proj1 (Hfail 1 (Go.other_error "broken pipe") eq_refl _)).
    vm_compute. lia.
Defined.

(* --------------------------------------------------------------------- *)
(** *** C9: the exits of the relay *)
(* --------------------------------------------------------------------- *)



(* ##################################################################### *)
(** * Part III: further properties of the adapter *)
(* ##################################################################### *)

(* ===================================================================== *)
(** ** More on the chat request translator *)
(* ===================================================================== *)

(** Induction along the walk: a system message is one step, a non-system
    message either ends the sequence or takes its successor with it. *)
Lemma walk_ind (P : list Message -> Prop) :
  P [] ->
  (forall m rest, Role m = "system" -> P rest -> P (m :: rest)) ->
  (forall m, Role m <> "system" -> P [m]) ->
  (forall m m' rest, Role m <> "system" -> P rest -> P (m :: m' :: rest)) ->
  forall msgs, P msgs.
Proof.
  intros Hnil Hsys Hlast Hpair msgs.
  remember (List.length msgs) as n eqn:Hn.
  assert (Hle : List.length msgs <= n) by lia. clear Hn.
  revert msgs Hle. induction n as [|n IH]; intros msgs Hle.
  - destruct msgs; [exact Hnil | simpl in Hle; lia].
  - destruct msgs as [|m rest]; [exact Hnil|]. simpl in Hle.
    destruct (String.eqb_spec (Role m) "system") as [Hs|Hs].
    + apply Hsys; [exact Hs | apply IH; lia].
    + destruct rest as [|m' rest']; [now apply Hlast|].
      apply Hpair; [exact Hs | apply IH; simpl in Hle; lia].
Qed.

Lemma walk_leading_system : forall sys rest,
  Forall (fun m => Role m = "system") sys ->
  walk (sys ++ rest) = (fst (walk rest), map okay sys ++ snd (walk rest)).
Proof.
  induction sys as [|m sys IH]; intros rest Hsys.
  - simpl. now destruct (walk rest).
  - inversion Hsys as [|? ? Hm Hsys']; subst.
    change ((m :: sys) ++ rest) with (m :: (sys ++ rest)).
    rewrite (walk_system m _ Hm), (IH rest Hsys'). reflexivity.
Qed.

(** X1: Leading system messages are primed one by one and leave the rest of
    the sequence to be translated as if it stood alone: the history of
    [sys ++ rest] is one "Okay" pair per message of [sys], followed by the
    history of [rest], and the prompt is that of [rest].  A request made of
    system messages only ([rest] empty) therefore has the empty prompt. *)
Theorem leading_system_messages : forall model sys rest,
  Forall (fun m => Role m = "system") sys ->
  let tr := fun l =>
    AliChatRequest.Input (requestOpenAI2Ali (mkGeneralOpenAIRequest model l)) in
  History (tr (sys ++ rest)) = map okay sys ++ History (tr rest)
  /\ Prompt (tr (sys ++ rest)) = Prompt (tr rest)
  /\ (rest = [] -> Prompt (tr (sys ++ rest)) = "").
Proof.
  intros model sys rest Hsys tr. subst tr. cbv beta.
  rewrite !requestOpenAI2Ali_walk.
  cbn [AliChatRequest.Input History Prompt Messages].
  rewrite (walk_leading_system sys rest Hsys). cbn [fst snd].
  repeat split. intros ->. reflexivity.
Qed.

Lemma leading_system_messages_witness :
  Forall (fun m => Role m = "system")
    [mkMessage "system" "be terse"; mkMessage "system" "answer in French"]
  /\ History (AliChatRequest.Input
                (requestOpenAI2Ali
                   (chat ([mkMessage "system" "be terse";
                           mkMessage "system" "answer in French"] ++ three_turns))))
     = [mkAliMessage "be terse" "Okay"; mkAliMessage "answer in French" "Okay";
        mkAliMessage "hi" "hello"]
  /\ Prompt (AliChatRequest.Input
               (requestOpenAI2Ali
                  (chat ([mkMessage "system" "be terse";
                          mkMessage "system" "answer in French"] ++ three_turns))))
     = "weather?".
Proof.
  assert (H : Forall (fun m => Role m = "system")
                [mkMessage "system" "be terse";
                 mkMessage "system" "answer in French"])
    by (repeat constructor).
  split; [exact H|].
  destruct (leading_system_messages "qwen-turbo" _ three_turns H)
    as (Hh & Hp & _).
  split; [exact Hh | exact Hp].
Defined.

Lemma walk_counts : forall msgs,
  List.length (snd (walk msgs))
    + match fst (walk msgs) with Some _ => 1 | None => 0 end
    <= List.length msgs
  /\ List.length msgs
     <= 2 * List.length (snd (walk msgs))
        + match fst (walk msgs) with Some _ => 1 | None => 0 end.
Proof.
  induction msgs as [| m rest Hs IH | m Hs | m m' rest Hs IH] using walk_ind.
  - simpl. lia.
  - rewrite (walk_system m rest Hs). cbn [fst snd List.length].
    destruct (fst (walk rest)); lia.
  - rewrite (walk_no_system_single m Hs). simpl. lia.
  - rewrite (walk_no_system_pair m m' rest Hs). cbn [fst snd List.length].
    destruct (fst (walk rest)); lia.
Qed.

(** X2: Whatever the roles, the history has at most one pair per message (the
    capacity [make] reserves is never exceeded) and at least one pair for
    every two messages; at most one message is left over for the prompt. *)
Theorem history_size_bounds : forall request,
  let N := List.length (Messages request) in
  let h := History (AliChatRequest.Input (requestOpenAI2Ali request)) in
  N / 2 <= List.length h <= N /\ N <= 2 * List.length h + 1.
Proof.
  intros request N h. subst N h.
  rewrite requestOpenAI2Ali_walk. cbn [AliChatRequest.Input History].
  destruct (walk_counts (Messages request)) as [Hup Hlow].
  assert (Hdiv : List.length (Messages request) / 2
                 <= List.length (snd (walk (Messages request)))).
  { assert (Hn : List.length (Messages request)
                   <= 1 + List.length (snd (walk (Messages request))) * 2)
      by (destruct (fst (walk (Messages request))); lia).
    apply (Nat.Div0.div_le_mono _ _ 2) in Hn.
    rewrite Nat.div_add in Hn by lia. exact Hn. }
  destruct (fst (walk (Messages request))); lia.
Qed.

Lemma walk_prompt : forall msgs,
  fst (walk msgs) = None
  \/ (msgs <> [] /\ Role (last msgs zeroMessage) <> "system"
      /\ fst (walk msgs) = Some (StringContent (last msgs zeroMessage))).
Proof.
  induction msgs as [| m rest Hs IH | m Hs | m m' rest Hs IH] using walk_ind.
  - now left.
  - rewrite (walk_system m rest Hs). cbn [fst].
    destruct IH as [IH|(Hne & Hr & Hp)]; [now left|].
    right. destruct rest as [|x xs]; [congruence|].
    change (last (m :: x :: xs) zeroMessage) with (last (x :: xs) zeroMessage).
    repeat split; auto. discriminate.
  - right. rewrite (walk_no_system_single m Hs). repeat split; auto. discriminate.
  - rewrite (walk_no_system_pair m m' rest Hs). cbn [fst].
    destruct IH as [IH|(Hne & Hr & Hp)]; [now left|].
    right. destruct rest as [|x xs]; [congruence|].
    change (last (m :: m' :: x :: xs) zeroMessage) with (last (x :: xs) zeroMessage).
    repeat split; auto. discriminate.
Qed.

(** X3: The prompt never comes from a message other than the last one: it is
    either left empty or it is the content of the last message, which is
    then not a system message. *)
Theorem prompt_is_last_or_empty : forall request,
  let out := AliChatRequest.Input (requestOpenAI2Ali request) in
  Prompt out = ""
  \/ (Messages request <> []
      /\ Role (last (Messages request) zeroMessage) <> "system"
      /\ Prompt out = StringContent (last (Messages request) zeroMessage)).
Proof.
  intros request out. subst out.
  rewrite requestOpenAI2Ali_walk. cbn [AliChatRequest.Input Prompt].
  destruct (walk_prompt (Messages request)) as [H|(Hne & Hr & Hp)].
  - left. now rewrite H.
  - right. rewrite Hp. auto.
Qed.

(* ===================================================================== *)
(** ** More on the unary handlers *)
(* ===================================================================== *)

(** X4: A reply without an error code is answered to the client with the
    vendor's status, the JSON content type and the marshalled canonical
    response, and the handler returns the usage [input, output, input +
    output].  The result of the write is not looked at: when the client
    is gone, nothing is written and the handler still reports success with
    the same usage. *)
Theorem aliHandler_success :
  forall errorWrapper Unmarshal Marshal created resp c responseBody aliResponse,
  Response.Body resp = Ok responseBody ->
  Response.Close resp = None ->
  Unmarshal responseBody = Ok aliResponse ->
  AliError.Code (AliChatResponse.Error aliResponse) = "" ->
  let out := aliHandler errorWrapper Unmarshal Marshal created resp c in
  let u := AliChatResponse.Usage aliResponse in
  fst out = (None,
             Some (Usage.mk (AliUsage.InputTokens u) (AliUsage.OutputTokens u)
                     (Go.add (AliUsage.InputTokens u) (AliUsage.OutputTokens u))))
  /\ Context.Status (snd out) = Some (Response.StatusCode resp)
  /\ In ("Content-Type", "application/json") (Context.Header (snd out))
  /\ (Context.Failure c = None ->
      Context.Written (snd out)
      = Context.Written c ++ [Marshal (responseAli2OpenAI created aliResponse)])
  /\ (forall err, Context.Failure c = Some (0, err) ->
      Context.Written (snd out) = Context.Written c).
Proof.
  intros ew U M created resp c body r Hbody Hclose Hdec Hcode out u.
  subst out u. unfold aliHandler. rewrite Hbody, Hclose, Hdec, Hcode.
  cbn [String.eqb negb].
  unfold Context.Write, Context.WriteHeader, Context.HeaderSet.
  cbn [Context.Failure Context.Header Context.Status Context.Written
       Context.Rendered].
  destruct (Context.Failure c) as [[[|n] e]|]; cbn;
    repeat split; auto; intros; try discriminate; congruence.
Qed.

Lemma aliHandler_success_witness :
  Response.Body hello_response = Ok "Hello!"
  /\ sample_Unmarshal "Hello!" = Ok (reply "Hello!" "stop" 7%Z 3%Z)
  /\ fst (aliHandler sample_errorWrapper sample_Unmarshal sample_Marshal_text
            1700000000%Z hello_response goneContext)
     = (None, Some (Usage.mk 7%Z 3%Z (Go.add 7%Z 3%Z)))
  /\ Context.Written
       (snd (aliHandler sample_errorWrapper sample_Unmarshal sample_Marshal_text
               1700000000%Z hello_response goneContext))
     = [].
Proof.
  split; [reflexivity|]. split; [reflexivity|].
  destruct (aliHandler_success sample_errorWrapper sample_Unmarshal
              sample_Marshal_text 1700000000%Z hello_response goneContext
              "Hello!" _ eq_refl eq_refl eq_refl eq_refl)
    as (Hres & _ & _ & _ & Hgone).
  split; [exact Hres|]. exact (Hgone _ eq_refl).
Defined.

(** X5: [aliHandler] returns an error or a usage, never both and never neither;
    whenever it returns an error, it has written nothing to the client. *)
Theorem aliHandler_error_or_usage :
  forall errorWrapper Unmarshal Marshal created resp c,
  let out := aliHandler errorWrapper Unmarshal Marshal created resp c in
  (exists e, out = ((Some e, None), c))
  \/ (exists u, fst out = (None, Some u)).
Proof.
  intros ew U M created resp c out. subst out. unfold aliHandler.
  destruct (Response.Body resp) as [body|e]; [|left; eauto].
  destruct (Response.Close resp) as [e|]; [left; eauto|].
  destruct (U body) as [r|e]; [|left; eauto].
  destruct (negb _); [left; eauto|].
  destruct (Context.Write _ _) as [c3 w]. right. eexists. reflexivity.
Qed.

(** X6: A vendor-reported error in an embedding reply becomes the same canonical
    error as in a chat reply: message, code as type and code, request id as
    param, vendor status; nothing is written to the client. *)
Theorem embedding_vendor_error :
  forall errorWrapper Decode MarshalE Unmarshal Marshal created
         resp c responseBody chatReply embeddingReply,
  Decode resp = Ok embeddingReply ->
  Response.Close resp = None ->
  AliError.Code (AliEmbeddingResponse.Error embeddingReply) <> "" ->
  Response.Body resp = Ok responseBody ->
  Unmarshal responseBody = Ok chatReply ->
  AliChatResponse.Error chatReply = AliEmbeddingResponse.Error embeddingReply ->
  aliEmbeddingHandler errorWrapper Decode MarshalE resp c
    = ((Some (OpenAIErrorWithStatusCode.mk
                (OpenAIError.mk
                   (AliError.Message (AliEmbeddingResponse.Error embeddingReply))
                   (AliError.Code (AliEmbeddingResponse.Error embeddingReply))
                   (AliError.RequestId (AliEmbeddingResponse.Error embeddingReply))
                   (AliError.Code (AliEmbeddingResponse.Error embeddingReply)))
                (Response.StatusCode resp)), None), c)
  /\ aliEmbeddingHandler errorWrapper Decode MarshalE resp c
     = aliHandler errorWrapper Unmarshal Marshal created resp c.
Proof.
  intros ew D ME U M created resp c body cr er Hdec Hclose Hcode Hbody Hu Herr.
  unfold aliEmbeddingHandler, aliHandler.
  rewrite Hdec, Hclose, Hbody, Hu, Herr.
  apply String.eqb_neq in Hcode. rewrite Hcode. split; reflexivity.
Qed.

Lemma embedding_vendor_error_witness :
  sample_Decode_embedding scenario_D = Ok embedding_error_reply
  /\ sample_Unmarshal "E" = Ok scenario_D_reply
  /\ aliEmbeddingHandler sample_errorWrapper sample_Decode_embedding
       sample_Marshal_embedding scenario_D freshContext
     = ((Some (OpenAIErrorWithStatusCode.mk
                 (OpenAIError.mk "url error" "InvalidParameter" "req-9"
                    "InvalidParameter") 400%Z), None), freshContext).
Proof.
  split; [reflexivity|]. split; [reflexivity|].
  refine (proj1 (embedding_vendor_error sample_errorWrapper
                   sample_Decode_embedding sample_Marshal_embedding
                   sample_Unmarshal sample_Marshal_text 1700000000%Z
                   scenario_D freshContext "E" scenario_D_reply
                   embedding_error_reply eq_refl eq_refl _ eq_refl eq_refl
                   eq_refl)).
  discriminate.
Defined.

(** X7: A successful embedding reply is answered with one canonical item per
    vendor embedding and the handler returns a usage that carries the
    vendor's [total_tokens] only: prompt and completion tokens are zero
    whatever the vendor's input and output counts.  A response that does not
    marshal is an error and leaves the client untouched. *)
Theorem aliEmbeddingHandler_success :
  forall errorWrapper Decode Marshal resp c aliResponse,
  Decode resp = Ok aliResponse ->
  Response.Close resp = None ->
  AliError.Code (AliEmbeddingResponse.Error aliResponse) = "" ->
  let out := aliEmbeddingHandler errorWrapper Decode Marshal resp c in
  let full := embeddingResponseAli2OpenAI aliResponse in
  List.length (OpenAIEmbeddingResponse.Data full)
    = List.length (AliEmbeddingResponse.Embeddings aliResponse)
  /\ (forall jsonResponse,
        Marshal full = Ok jsonResponse ->
        fst out
        = (None,
           Some (Usage.mk 0%Z 0%Z
                   (AliUsage.TotalTokens (AliEmbeddingResponse.Usage aliResponse))))
        /\ Context.Status (snd out) = Some (Response.StatusCode resp)
        /\ (Context.Failure c = None ->
            Context.Written (snd out) = Context.Written c ++ [jsonResponse]))
  /\ (forall err,
        Marshal full = Failed err ->
        out = ((Some (errorWrapper err "marshal_response_body_failed"
                        Go.StatusInternalServerError), None), c)).
Proof.
  intros ew D M resp c r Hdec Hclose Hcode out full. subst out full.
  split; [now rewrite embedding_Data, length_map|].
  unfold aliEmbeddingHandler. rewrite Hdec, Hclose, Hcode.
  cbn [String.eqb negb]. split.
  - intros json Hm. rewrite Hm.
    unfold Context.Write, Context.WriteHeader, Context.HeaderSet.
    cbn [Context.Failure Context.Header Context.Status Context.Written
         Context.Rendered].
    destruct (Context.Failure c) as [[[|n] e]|]; cbn;
      repeat split; auto; intros; discriminate.
  - intros err Hm. now rewrite Hm.
Qed.

Lemma aliEmbeddingHandler_success_witness :
  sample_Decode_embedding clean_close = Ok scenario_C
  /\ fst (aliEmbeddingHandler sample_errorWrapper sample_Decode_embedding
            sample_Marshal_embedding clean_close freshContext)
     = (None, Some (Usage.mk 0%Z 0%Z 3%Z)).
Proof.
  split; [reflexivity|].
  destruct (aliEmbeddingHandler_success sample_errorWrapper
              sample_Decode_embedding sample_Marshal_embedding clean_close
              freshContext scenario_C eq_refl eq_refl eq_refl) as (_ & Hok & _).
  exact (proj1 (Hok _ eq_refl)).
Defined.

(* ===================================================================== *)
(** ** The scanning goroutine *)
(* ===================================================================== *)

Lemma length_append (a b : string) :
  String.length (a ++ b) = String.length a + String.length b.
Proof. induction a as [|x a IH]; simpl; [reflexivity | now rewrite IH]. Qed.

Lemma substring_0_0 (s : string) : substring 0 0 s = "".
Proof. now destruct s. Qed.

Lemma substring_0_append (a b : string) :
  substring 0 (String.length a) (a ++ b) = a.
Proof.
  induction a as [|x a IH]; simpl; [apply substring_0_0 | now rewrite IH].
Qed.

Lemma slice_from_length (s : string) : Go.slice_from s (String.length s) = "".
Proof.
  unfold Go.slice_from. rewrite Nat.sub_diag.
  induction s as [|x s IH]; simpl; [reflexivity | exact IH].
Qed.

Lemma slice_from_append (a b : string) :
  Go.slice_from (a ++ b) (String.length a) = b.
Proof.
  unfold Go.slice_from. rewrite length_append.
  replace (String.length a + String.length b - String.length a)
    with (String.length b) by lia.
  induction a as [|x a IH]; simpl; [apply substring_0_length | exact IH].
Qed.

Lemma slice_from_cons ch s i :
  Go.slice_from (String ch s) (S i) = Go.slice_from s i.
Proof. reflexivity. Qed.

(** Where the first newline is: the bytes before it hold none, and the data
    is those bytes, the newline, and the rest. *)
Lemma IndexNewline_Some : forall s i,
  IndexNewline s = Some i ->
  i < String.length s
  /\ String.length (substring 0 i s) = i
  /\ IndexNewline (substring 0 i s) = None
  /\ s = (substring 0 i s ++ String newline (Go.slice_from s (i + 1)))%string.
Proof.
  induction s as [|ch s IH]; intros i H; [discriminate|].
  cbn [IndexNewline] in H.
  destruct (Ascii.eqb_spec ch newline) as [Hch|Hch].
  - injection H as <-. subst ch. cbn [String.length substring Nat.add].
    rewrite slice_from_cons. unfold Go.slice_from.
    rewrite Nat.sub_0_r, substring_0_length.
    repeat split; auto. lia.
  - destruct (IndexNewline s) as [j|] eqn:Hj; [|discriminate].
    injection H as <-. destruct (IH j eq_refl) as (Hlt & Hlen & Hno & Hs).
    cbn [String.length substring IndexNewline Nat.add].
    rewrite slice_from_cons, Hlen, Hno.
    destruct (Ascii.eqb_spec ch newline) as [|_]; [contradiction|].
    repeat split; auto; [lia|].
    cbn [append]. now rewrite <- Hs.
Qed.

Lemma IndexNewline_append_l : forall s t i,
  IndexNewline s = Some i -> IndexNewline (s ++ t) = Some i.
Proof.
  induction s as [|ch s IH]; intros t i H; [discriminate|].
  cbn [IndexNewline append] in *.
  destruct (Ascii.eqb ch newline); [exact H|].
  destruct (IndexNewline s) as [j|]; [|discriminate].
  now rewrite (IH t j eq_refl).
Qed.

Lemma IndexNewline_terminated : forall line rest,
  IndexNewline line = None ->
  IndexNewline (line ++ String newline rest) = Some (String.length line).
Proof.
  induction line as [|ch line IH]; intros rest H.
  - reflexivity.
  - cbn [IndexNewline append String.length] in *.
    destruct (Ascii.eqb ch newline); [discriminate|].
    destruct (IndexNewline line); [discriminate|].
    now rewrite (IH rest eq_refl).
Qed.

Lemma substring_0_append_l : forall s t i,
  i <= String.length s -> substring 0 i (s ++ t) = substring 0 i s.
Proof.
  induction s as [|ch s IH]; intros t i Hi.
  - simpl in Hi. replace i with 0 by lia. now rewrite !substring_0_0.
  - destruct i as [|i]; [reflexivity|]. simpl in Hi.
    cbn [append substring]. f_equal. apply IH. lia.
Qed.

(** X8: The split function is sound for a scanner that may call it on a buffer
    holding only the beginning of the body: a token found in a partial
    buffer is the token found in any longer buffer, at or before the end of
    input, with the same advance. *)
Theorem splitFunc_prefix_stable : forall data more atEOF advance token err,
  splitFunc data false = (advance, Some token, err) ->
  splitFunc (data ++ more) atEOF = (advance, Some token, err).
Proof.
  intros data more atEOF advance token err H.
  unfold splitFunc in *. cbn [andb] in H.
  destruct (IndexNewline data) as [i|] eqn:Hi; [|discriminate].
  destruct (IndexNewline_Some data i Hi) as (Hlt & _).
  rewrite (IndexNewline_append_l data more i Hi).
  rewrite substring_0_append_l by lia.
  destruct (Nat.eqb_spec (String.length (data ++ more)) 0) as [Hz|_].
  - rewrite length_append in Hz. lia.
  - rewrite andb_false_r. exact H.
Qed.

Lemma splitFunc_prefix_stable_witness :
  splitFunc "data:x" false = (0, None, None)
  /\ splitFunc (terminated "data:x") false = (7, Some "data:x", None)
  /\ splitFunc (terminated "data:x" ++ "data:y") true = (7, Some "data:x", None).
Proof.
  split; [reflexivity|]. split; [reflexivity|].
  exact (splitFunc_prefix_stable (terminated "data:x") "data:y" true
           7 "data:x" None eq_refl).
Defined.

(** X9: What the split function returns.  It never reports an error.  A token
    holds no newline and costs at least one byte; it is either a line, cut
    before its newline, with the advance stepping over that newline, or, at
    the end of input only, the whole non-empty remainder that no newline
    ends.  No token means no advance, and at the end of input it means that
    nothing is left. *)
Theorem splitFunc_tokens : forall data atEOF advance token err,
  splitFunc data atEOF = (advance, token, err) ->
  err = None
  /\ match token with
     | Some line =>
         IndexNewline line = None
         /\ 1 <= advance <= String.length data
         /\ ((advance = String.length line + 1
              /\ data = (line ++ String newline (Go.slice_from data advance))%string)
             \/ (atEOF = true /\ line = data /\ advance = String.length data))
     | None =>
         advance = 0 /\ IndexNewline data = None /\ (atEOF = true -> data = "")
     end.
Proof.
  intros data atEOF advance token err H. unfold splitFunc in H.
  destruct (IndexNewline data) as [i|] eqn:Hi.
  - destruct (IndexNewline_Some data i Hi) as (Hlt & Hlen & Hno & Hs).
    assert (Hnz : (String.length data =? 0)%nat = false)
      by (apply Nat.eqb_neq; lia).
    rewrite Hnz, andb_false_r in H. injection H as <- <- <-.
    split; [reflexivity|]. split; [exact Hno|]. split; [lia|].
    left. rewrite Hlen. split; [reflexivity | exact Hs].
  - destruct atEOF; cbn [andb] in H.
    + destruct (Nat.eqb_spec (String.length data) 0) as [Hz|Hnz].
      * injection H as <- <- <-. repeat split; auto.
        intros _. destruct data; [reflexivity | discriminate].
      * injection H as <- <- <-. split; [reflexivity|].
        split; [exact Hi|]. split; [lia|]. right. auto.
    + injection H as <- <- <-. repeat split; auto. discriminate.
Qed.

Lemma splitFunc_tokens_witness :
  splitFunc "data:x" true = (6, Some "data:x", None)
  /\ IndexNewline "data:x" = None.
Proof.
  split; [reflexivity|].
  exact (proj1 (proj2 (splitFunc_tokens "data:x" true 6 (Some "data:x") None
                         eq_refl))).
Defined.

(** X10: The goroutine forwards exactly the lines that start with [data:], and
    forwards everything after these five bytes untouched (a space after the
    colon stays in the payload); every other line is dropped. *)
Theorem linePayload_iff : forall data payload,
  linePayload data = Some payload <-> data = ("data:" ++ payload)%string.
Proof.
  intros data payload. unfold linePayload. split.
  - destruct (Nat.ltb_spec (String.length data) 5) as [|Hlen]; [discriminate|].
    destruct (String.eqb_spec (substring 0 5 data) "data:") as [Hpre|];
      [|discriminate].
    cbn [negb]. intros H. injection H as <-.
    rewrite <- Hpre. symmetry. now apply substring_split.
  - intros ->.
    change "data:" with (String "d" (String "a" (String "t" (String "a"
                           (String ":" ""))))).
    cbn [append String.length Nat.ltb Nat.leb substring].
    rewrite substring_0_0. cbn [String.eqb Ascii.eqb Bool.eqb negb].
    rewrite !slice_from_cons. unfold Go.slice_from.
    now rewrite Nat.sub_0_r, substring_0_length.
Qed.

Lemma slice_from_0 (s : string) : Go.slice_from s 0 = s.
Proof. unfold Go.slice_from. now rewrite Nat.sub_0_r, substring_0_length. Qed.

Lemma splitFunc_terminated line rest :
  IndexNewline line = None ->
  splitFunc (line ++ String newline rest) true
    = (String.length line + 1, Some line, None).
Proof.
  intros Hno. unfold splitFunc.
  rewrite (IndexNewline_terminated line rest Hno), substring_0_append.
  destruct (Nat.eqb_spec (String.length (line ++ String newline rest)) 0)
    as [Hz|_]; [|reflexivity].
  rewrite length_append in Hz. simpl in Hz. lia.
Qed.

Lemma slice_from_terminated line rest :
  Go.slice_from (line ++ String newline rest) (String.length line + 1) = rest.
Proof.
  induction line as [|ch line IH].
  - cbn [append String.length Nat.add]. rewrite slice_from_cons.
    apply slice_from_0.
  - cbn [append String.length Nat.add]. rewrite slice_from_cons. exact IH.
Qed.

Lemma terminated_append line rest :
  (terminated line ++ rest)%string = (line ++ String newline rest)%string.
Proof. unfold terminated. now rewrite append_assoc. Qed.

(** Terminated lines come back one token each, whatever follows them. *)
Lemma splitTokens_lines : forall lines tail fuel,
  Forall (fun line => IndexNewline line = None) lines ->
  splitTokens (List.length lines + fuel)
    (concat_all (map terminated lines) ++ tail)
    = lines ++ splitTokens fuel tail.
Proof.
  induction lines as [|line lines IH]; intros tail fuel Hno; [reflexivity|].
  inversion Hno as [|? ? Hline Hrest]; subst.
  cbn [List.length Nat.add map concat_all fold_right splitTokens].
  fold (concat_all (map terminated lines)).
  rewrite append_assoc, terminated_append.
  rewrite (splitFunc_terminated line _ Hline), slice_from_terminated.
  cbn [app]. f_equal. now apply IH.
Qed.

Lemma splitTokens_empty fuel : splitTokens fuel "" = [].
Proof. destruct fuel; reflexivity. Qed.

Lemma splitTokens_last fuel line :
  IndexNewline line = None -> line <> "" ->
  splitTokens (S fuel) line = [line].
Proof.
  intros Hno Hne. cbn [splitTokens]. unfold splitFunc. rewrite Hno.
  destruct (Nat.eqb_spec (String.length line) 0) as [Hz|_].
  - destruct line; [congruence | discriminate].
  - cbn [andb]. now rewrite slice_from_length, splitTokens_empty.
Qed.

Lemma length_concat_terminated lines :
  String.length (concat_all (map terminated lines))
    = List.length lines
      + String.length (concat_all lines).
Proof.
  induction lines as [|line lines IH]; [reflexivity|].
  cbn [map concat_all fold_right List.length].
  fold (concat_all (map terminated lines)). fold (concat_all lines).
  unfold terminated at 1. rewrite !length_append, IH. simpl. lia.
Qed.

(** X11: Splitting loses nothing and invents nothing: a body made of lines, each
    ended by a newline, splits back into exactly these lines, in order, an
    empty line included; a non-empty last line that no newline ends is
    delivered as well. *)
Theorem bodyTokens_round_trip : forall lines,
  Forall (fun line => IndexNewline line = None) lines ->
  bodyTokens (concat_all (map terminated lines)) = lines
  /\ (forall final,
        IndexNewline final = None -> final <> "" ->
        bodyTokens (concat_all (map terminated lines) ++ final)
          = lines ++ [final]).
Proof.
  intros lines Hno. unfold bodyTokens. split.
  - rewrite length_concat_terminated.
    rewrite <- (append_empty_r (concat_all (map terminated lines))).
    rewrite (splitTokens_lines lines "" _ Hno), splitTokens_empty.
    apply app_nil_r.
  - intros final Hfinal Hne.
    rewrite length_append, length_concat_terminated.
    destruct (String.length final) as [|n] eqn:Hlen.
    { destruct final; [congruence | discriminate]. }
    replace (List.length lines + String.length (concat_all lines) + S n)
      with (List.length lines + S (String.length (concat_all lines) + n))
      by lia.
    rewrite (splitTokens_lines lines final _ Hno).
    now rewrite (splitTokens_last _ final Hfinal Hne).
Qed.

Lemma bodyTokens_round_trip_witness :
  Forall (fun line => IndexNewline line = None) ["data:a"; ""; ": ping"]
  /\ bodyTokens (concat_all (map terminated ["data:a"; ""; ": ping"]))
     = ["data:a"; ""; ": ping"].
Proof.
  assert (H : Forall (fun line => IndexNewline line = None)
                ["data:a"; ""; ": ping"]) by (repeat constructor).
  split; [exact H|].
  exact (proj1 (bodyTokens_round_trip _ H)).
Defined.

Lemma tokenPayloads_app a b :
  tokenPayloads (a ++ b) = tokenPayloads a ++ tokenPayloads b.
Proof. unfold tokenPayloads. apply flat_map_app. Qed.

Lemma IndexNewline_append_None : forall a b,
  IndexNewline a = None -> IndexNewline b = None ->
  IndexNewline (a ++ b) = None.
Proof.
  induction a as [|ch a IH]; intros b Ha Hb; [exact Hb|].
  cbn [IndexNewline append] in *.
  destruct (Ascii.eqb ch newline); [discriminate|].
  destruct (IndexNewline a); [discriminate|].
  now rewrite (IH b eq_refl Hb).
Qed.

(** X12: For a vendor body in event-stream framing that has been read to
    its end, where each event is a [data:] line followed by an empty line
    and every line fits the scanner's 64 KiB token limit, the split function
    applied over the body and the goroutine's line filter yield exactly the
    payloads, in the order of the body, and nothing for the empty lines.
    (A line beyond the limit is outside this statement: there the scanner
    stops.) *)
Theorem event_stream_payloads : forall payloads,
  Forall (fun payload =>
            IndexNewline payload = None
            /\ fits_scanner ("data:" ++ payload)) payloads ->
  tokenPayloads
    (bodyTokens
       (concat_all
          (map terminated
             (flat_map (fun payload => [("data:" ++ payload)%string; ""])
                payloads))))
    = payloads.
Proof.
  intros payloads Hfit.
  assert (Hno : Forall (fun payload => IndexNewline payload = None) payloads).
  { eapply Forall_impl; [|exact Hfit]. now intros p [Hp _]. }
  clear Hfit.
  assert (Hlines : Forall (fun line => IndexNewline line = None)
                     (flat_map (fun payload => [("data:" ++ payload)%string; ""])
                        payloads)).
  { induction Hno as [|p ps Hp _ IH]; [constructor|].
    cbn [flat_map app]. constructor; [|constructor; [reflexivity | exact IH]].
    apply IndexNewline_append_None; [reflexivity | exact Hp]. }
  rewrite (proj1 (bodyTokens_round_trip _ Hlines)).
  clear Hlines Hno. induction payloads as [|p ps IH]; [reflexivity|].
  cbn [flat_map]. rewrite tokenPayloads_app, IH.
  unfold tokenPayloads at 1. cbn [flat_map app].
  rewrite (proj2 (linePayload_iff _ p) eq_refl). reflexivity.
Qed.

Lemma event_stream_payloads_witness :
  Forall (fun payload =>
            IndexNewline payload = None
            /\ fits_scanner ("data:" ++ payload)) [" {a}"; " {b}"]
  /\ tokenPayloads
       (bodyTokens
          (concat_all
             (map terminated ["data: {a}"; ""; "data: {b}"; ""])))
     = [" {a}"; " {b}"].
Proof.
  assert (H : Forall (fun payload =>
                        IndexNewline payload = None
                        /\ fits_scanner ("data:" ++ payload))
                [" {a}"; " {b}"])
    by (repeat constructor).
  split; [exact H|].
  exact (event_stream_payloads _ H).
Defined.

(* ===================================================================== *)
(** ** More on the streamed chat handler *)
(* ===================================================================== *)

Section MoreStreamProperties.

Variable errorWrapper : Go.error -> string -> Go.int -> OpenAIErrorWithStatusCode.t.
Variable setEventStreamHeaders : Context.t -> Context.t.
Variable Unmarshal : string -> result AliChatResponse.t.

Lemma fold_onData_usage : forall frames s c,
  usage (fst (fold_left (onData Unmarshal) frames (s, c)))
    = fold_left (fun acc r => updateUsage (AliChatResponse.Usage r) acc)
        (decodedReplies Unmarshal frames) (usage s).
Proof.
  induction frames as [|frame rest IH]; intros s c; [reflexivity|].
  cbn [fold_left decodedReplies flat_map].
  destruct (Unmarshal (Payload frame)) as [r|err] eqn:Hdec.
  - rewrite (onData_decoded Unmarshal s c frame r Hdec), IH. reflexivity.
  - rewrite (onData_failed Unmarshal s c frame err Hdec), IH. reflexivity.
Qed.

Lemma fold_updateUsage_silent : forall replies acc,
  Forall (fun r => ~ reports_usage r) replies ->
  fold_left (fun acc r => updateUsage (AliChatResponse.Usage r) acc) replies acc
    = acc.
Proof.
  induction replies as [|r replies IH]; intros acc H; [reflexivity|].
  inversion H as [|? ? Hr Hrest]; subst. cbn [fold_left].
  unfold reports_usage in Hr.
  rewrite (proj2 (updateUsage_exact (AliChatResponse.Usage r) acc)).
  - now apply IH.
  - destruct (Z.eq_dec (AliUsage.OutputTokens (AliChatResponse.Usage r)) 0);
      [assumption | contradiction].
Qed.

Lemma fold_onData_shape : forall frames s c,
  exists evs,
    Context.Rendered (snd (fold_left (onData Unmarshal) frames (s, c)))
      = Context.Rendered c ++ evs
    /\ Forall is_chunk evs
    /\ Forall chunk_shape evs.
Proof.
  induction frames as [|frame rest IH]; intros s c.
  - exists []. cbn. now rewrite app_nil_r.
  - cbn [fold_left].
    destruct (Unmarshal (Payload frame)) as [r|err] eqn:Hdec.
    + rewrite (onData_decoded Unmarshal s c frame r Hdec).
      match goal with |- context [fold_left _ rest (?s1, ?c1)] =>
        destruct (IH s1 c1) as (evs & Hr & Hch & Hsh) end.
      match type of Hr with context [Context.Render (ChunkEvent ?e) c] =>
        exists (ChunkEvent e :: evs) end.
      split; [|split].
      * rewrite Hr. cbn [Context.Render Context.Rendered].
        now rewrite <- app_assoc.
      * constructor; [exact I | exact Hch].
      * constructor; [|exact Hsh]. cbn. auto.
    + rewrite (onData_failed Unmarshal s c frame err Hdec). apply IH.
Qed.

End MoreStreamProperties.

(** X13: The usage a streamed call returns is not a sum over the frames: it is
    the usage of the last decodable frame that reports output tokens
    (input, output and their sum), and the zero usage when no frame reports
    any. *)
Theorem stream_usage_is_last_report :
  forall errorWrapper setEventStreamHeaders Unmarshal resp frames c,
  Response.Close resp = None ->
  let returned :=
    snd (fst (aliStreamHandler errorWrapper setEventStreamHeaders Unmarshal
                resp frames c)) in
  (Forall (fun r => ~ reports_usage r) (decodedReplies Unmarshal frames) ->
   returned = Some Usage.zero)
  /\ (forall before r after,
        decodedReplies Unmarshal frames = before ++ r :: after ->
        reports_usage r ->
        Forall (fun r' => ~ reports_usage r') after ->
        returned
        = Some (Usage.mk (AliUsage.InputTokens (AliChatResponse.Usage r))
                  (AliUsage.OutputTokens (AliChatResponse.Usage r))
                  (Go.add (AliUsage.InputTokens (AliChatResponse.Usage r))
                          (AliUsage.OutputTokens (AliChatResponse.Usage r))))).
Proof.
  intros ew hdrs U resp frames c Hclose returned. subst returned.
  rewrite aliStreamHandler_result, Hclose. cbn [snd].
  rewrite fold_onData_usage. cbn [usage]. split.
  - intros H. now rewrite fold_updateUsage_silent.
  - intros before r after -> Hr Hafter.
    rewrite fold_left_app. cbn [fold_left].
    rewrite (fold_updateUsage_silent after _ Hafter).
    now rewrite (proj1 (updateUsage_exact (AliChatResponse.Usage r) _) Hr).
Qed.

Lemma stream_usage_is_last_report_witness :
  Response.Close clean_close = None
  /\ decodedReplies sample_Unmarshal scenario_B_glitch = scenario_B_replies
  /\ snd (fst (aliStreamHandler sample_errorWrapper sample_setEventStreamHeaders
                 sample_Unmarshal clean_close scenario_B_glitch freshContext))
     = Some (Usage.mk 7%Z 3%Z (Go.add 7%Z 3%Z)).
Proof.
  split; [reflexivity|]. split; [reflexivity|].
  destruct (stream_usage_is_last_report sample_errorWrapper
              sample_setEventStreamHeaders sample_Unmarshal clean_close
              scenario_B_glitch freshContext eq_refl) as [_ Hlast].
  apply (Hlast [reply "Hel" "null" 0%Z 0%Z; reply "Hello" "null" 0%Z 0%Z]
           (reply "Hello!" "stop" 7%Z 3%Z) []).
  - reflexivity.
  - unfold reports_usage. discriminate.
  - constructor.
Defined.

(** X14: Every chunk a streamed call renders is a [chat.completion.chunk]
    with exactly one choice, labelled with the fixed model name "ernie-bot"
    whatever the request asked for; the chunks come first and the
    sentinel is the last event, whether or not closing the body fails. *)
Theorem stream_chunks_shape :
  forall errorWrapper setEventStreamHeaders Unmarshal resp frames c,
  let c0 := setEventStreamHeaders c in
  let c' := snd (aliStreamHandler errorWrapper setEventStreamHeaders Unmarshal
                   resp frames c) in
  exists chunks,
    emitted c0 c' = chunks ++ [DoneEvent]
    /\ Forall is_chunk chunks
    /\ Forall chunk_shape chunks.
Proof.
  intros ew hdrs U resp frames c c0 c'. subst c0 c'.
  rewrite aliStreamHandler_context.
  destruct (fold_onData_shape U frames (mkStreamState Usage.zero "") (hdrs c))
    as (evs & Hr & Hch & Hsh).
  exists evs. split; [|auto].
  apply emitted_app. cbn [Context.Render Context.Rendered]. rewrite Hr.
  now rewrite <- app_assoc.
Qed.

Lemma trimmed_no_extension : forall texts prev,
  no_text_extends prev texts -> trimmed prev texts = texts.
Proof.
  induction texts as [|t rest IH]; intros prev H; [reflexivity|].
  destruct H as [Hhere Hrest]. cbn [trimmed]. rewrite (IH t Hrest). f_equal.
  destruct Hhere as [->|Hno]; [apply TrimPrefix_empty|].
  unfold Go.TrimPrefix. now rewrite Hno.
Qed.

(** X15: A vendor that streams increments instead of cumulative texts gets them
    through unchanged, as long as no frame's text starts with the non-empty
    text of the frame before it: the emitted deltas are then the frames'
    texts themselves. *)
Theorem stream_increments_pass_through :
  forall errorWrapper setEventStreamHeaders Unmarshal resp frames replies c,
  Forall2 (fun frame r => Unmarshal (Payload frame) = Ok r) frames replies ->
  no_text_extends "" (map text_of replies) ->
  deltas (emitted (setEventStreamHeaders c)
            (snd (aliStreamHandler errorWrapper setEventStreamHeaders Unmarshal
                    resp frames c)))
    = map text_of replies.
Proof.
  intros ew hdrs U resp frames replies c Hdec Hno.
  destruct (aliStreamHandler_emitted ew hdrs U resp frames c)
    as (chunks & Hem & _ & _ & Hd).
  rewrite Hem, deltas_app_done, (Hd replies Hdec).
  now apply trimmed_no_extension.
Qed.

Lemma stream_increments_pass_through_witness :
  Forall2 (fun frame r => sample_Unmarshal (Payload frame) = Ok r)
    [mkReceived 1%Z "Hel"; mkReceived 2%Z "lo"; mkReceived 3%Z "!"]
    [reply "Hel" "null" 0%Z 0%Z; reply "lo" "null" 0%Z 0%Z;
     reply "!" "null" 0%Z 0%Z]
  /\ deltas (emitted (sample_setEventStreamHeaders freshContext)
               (snd (aliStreamHandler sample_errorWrapper
                       sample_setEventStreamHeaders sample_Unmarshal clean_close
                       [mkReceived 1%Z "Hel"; mkReceived 2%Z "lo";
                        mkReceived 3%Z "!"] freshContext)))
     = ["Hel"; "lo"; "!"].
Proof.
  assert (Hdec : Forall2 (fun frame r => sample_Unmarshal (Payload frame) = Ok r)
                   [mkReceived 1%Z "Hel"; mkReceived 2%Z "lo"; mkReceived 3%Z "!"]
                   [reply "Hel" "null" 0%Z 0%Z; reply "lo" "null" 0%Z 0%Z;
                    reply "!" "null" 0%Z 0%Z])
    by (repeat constructor).
  split; [exact Hdec|].
  apply (stream_increments_pass_through sample_errorWrapper
           sample_setEventStreamHeaders sample_Unmarshal clean_close _ _
           freshContext Hdec).
  cbn. repeat split; auto.
Defined.

(* ===================================================================== *)
(** ** More on the text-to-speech relay *)
(* ===================================================================== *)

Lemma slices_length : forall fuel audioData i,
  List.length audioData - i <= fuel ->
  List.length (slices fuel audioData i)
    = (List.length audioData - i + 1023) / 1024.
Proof.
  induction fuel as [|fuel IH]; intros audioData i Hfuel.
  - replace (List.length audioData - i) with 0 by lia. reflexivity.
  - destruct (Nat.lt_ge_cases i (List.length audioData)) as [Hi|Hi].
    + rewrite slices_step by exact Hi. cbn [List.length].
      rewrite IH by (unfold chunkSize; lia). unfold chunkSize.
      destruct (Nat.lt_ge_cases (List.length audioData - i) 1025) as [Hs|Hl].
      * replace (List.length audioData - (i + 1024)) with 0 by lia.
        change ((0 + 1023) / 1024) with 0.
        apply (Nat.div_unique _ 1024 1 (List.length audioData - i - 1)); lia.
      * replace (List.length audioData - i + 1023)
          with (1 * 1024 + (List.length audioData - (i + 1024) + 1023)) by lia.
        rewrite Nat.div_add_l by lia. reflexivity.
    + rewrite slices_done by exact Hi.
      replace (List.length audioData - i) with 0 by lia. reflexivity.
Qed.

(** X16: A binary frame of [n] bytes costs ⌈n/1024⌉ writes (none for an empty
    frame); write [k] carries [min(1024, n - 1024k)] bytes, so every write
    but the last is full. *)
Theorem chunk_count_and_sizes : forall audioData,
  List.length (chunksOf audioData) = (List.length audioData + 1023) / 1024
  /\ (forall k chunk,
        nth_error (chunksOf audioData) k = Some chunk ->
        List.length chunk = Nat.min 1024 (List.length audioData - 1024 * k)).
Proof.
  intros audioData. split.
  - rewrite chunksOf_slices, slices_length by lia. now rewrite Nat.sub_0_r.
  - intros k chunk H.
    apply (proj2 (proj2 (chunksOf_facts audioData))) in H. subst chunk.
    rewrite length_firstn, length_skipn. f_equal. lia.
Qed.

Section MoreRelayProperties.

Variable errorWrapper : Go.error -> string -> Go.int -> OpenAIErrorWithStatusCode.t.
Variable Unmarshal : list byte -> AliWSSMessage.t * option Go.error.

(** Whatever the client does, the chunking loop writes the slices in order
    up to some point, all of them when it reports no error, and touches
    nothing else. *)
Lemma writeChunks_general : forall fuel audioData i c,
  exists k,
    Context.Written (fst (writeChunks fuel audioData i c))
      = Context.Written c ++ firstn k (slices fuel audioData i)
    /\ (snd (writeChunks fuel audioData i c) = None ->
        firstn k (slices fuel audioData i) = slices fuel audioData i)
    /\ Context.Header (fst (writeChunks fuel audioData i c)) = Context.Header c
    /\ Context.Status (fst (writeChunks fuel audioData i c)) = Context.Status c
    /\ Context.Rendered (fst (writeChunks fuel audioData i c))
       = Context.Rendered c.
Proof.
  induction fuel as [|fuel IH]; intros audioData i c.
  - exists 0. cbn. rewrite app_nil_r. auto.
  - cbn [writeChunks slices].
    destruct (i <? List.length audioData)%nat.
    2:{ exists 0. cbn. rewrite app_nil_r. auto. }
    set (chunk := firstn _ (skipn i audioData)).
    unfold Context.Write.
    destruct (Context.Failure c) as [[[|n] e]|].
    + exists 0. cbn. rewrite app_nil_r. repeat split; auto. discriminate.
    + match goal with |- context [writeChunks fuel audioData _ ?c1] =>
        destruct (IH audioData (i + chunkSize) c1) as (k & Hw & Hall & Hh & Hs & Hr);
        destruct (writeChunks fuel audioData (i + chunkSize) c1) as [c2 werr]
      end.
      exists (S k). cbn [fst snd] in *. cbn [Context.Written Context.Header
        Context.Status Context.Rendered firstn] in *.
      rewrite Hw, <- app_assoc.
      destruct werr; cbn [fst snd]; repeat split; auto;
        try discriminate; intros _; f_equal; now apply Hall.
    + match goal with |- context [writeChunks fuel audioData _ ?c1] =>
        destruct (IH audioData (i + chunkSize) c1) as (k & Hw & Hall & Hh & Hs & Hr);
        destruct (writeChunks fuel audioData (i + chunkSize) c1) as [c2 werr]
      end.
      exists (S k). cbn [fst snd] in *. cbn [Context.Written Context.Header
        Context.Status Context.Rendered firstn] in *.
      rewrite Hw, <- app_assoc.
      destruct werr; cbn [fst snd]; repeat split; auto;
        try discriminate; intros _; f_equal; now apply Hall.
Qed.

Lemma writeAudio_general audioData c :
  exists k,
    Context.Written (fst (writeAudio audioData c))
      = Context.Written c ++ firstn k (chunksOf audioData)
    /\ (snd (writeAudio audioData c) = None ->
        firstn k (chunksOf audioData) = chunksOf audioData)
    /\ Context.Header (fst (writeAudio audioData c)) = Context.Header c
    /\ Context.Status (fst (writeAudio audioData c)) = Context.Status c
    /\ Context.Rendered (fst (writeAudio audioData c)) = Context.Rendered c.
Proof.
  unfold writeAudio. rewrite chunksOf_slices. apply writeChunks_general.
Qed.

Lemma bytes_prefix_firstn_chunks k audioData tail :
  bytes_prefix (List.concat (firstn k (chunksOf audioData))) (audioData ++ tail).
Proof.
  exists (List.concat (skipn k (chunksOf audioData)) ++ tail).
  rewrite app_assoc, <- concat_app, firstn_skipn.
  now rewrite (proj1 (chunksOf_facts audioData)).
Qed.

Lemma Forall_firstn_keeps (A : Type) (P : A -> Prop) : forall k (l : list A),
  Forall P l -> Forall P (firstn k l).
Proof.
  induction k as [|k IH]; intros l H; [constructor|].
  destruct H as [|x l Hx Hl]; [constructor|].
  cbn [firstn]. constructor; [exact Hx | now apply IH].
Qed.

Lemma chunk_sizes_firstn k audioData :
  Forall (fun chunk => 1 <= List.length chunk <= 1024)
    (firstn k (chunksOf audioData)).
Proof.
  apply Forall_firstn_keeps. exact (proj1 (proj2 (chunksOf_facts audioData))).
Qed.

(** What any returned run of the read loop has done to the client. *)
Lemma readLoop_writes : forall reads u c res c',
  readLoop errorWrapper Unmarshal reads u c = Some (res, c') ->
  exists ws,
    Context.Written c' = Context.Written c ++ ws
    /\ Forall (fun chunk => 1 <= List.length chunk <= 1024) ws
    /\ bytes_prefix (List.concat ws) (List.concat (binaryFrames reads))
    /\ Context.Header c' = Context.Header c
    /\ Context.Status c' = Context.Status c
    /\ Context.Rendered c' = Context.Rendered c.
Proof.
  assert (Hnil : forall c l,
            exists ws : list (list byte),
              Context.Written c = Context.Written c ++ ws
              /\ Forall (fun chunk => 1 <= List.length chunk <= 1024) ws
              /\ bytes_prefix (List.concat ws) l
              /\ Context.Header c = Context.Header c
              /\ Context.Status c = Context.Status c
              /\ Context.Rendered c = Context.Rendered c).
  { intros c l. exists []. rewrite app_nil_r. repeat split; auto.
    now exists l. }
  induction reads as [|r reads IH]; intros u c res c' H; [discriminate|].
  destruct r as [messageType p|err]; cbn [readLoop] in H.
  - unfold binaryFrames. cbn [flat_map]. fold (binaryFrames reads).
    destruct (messageType =? TextMessage)%Z.
    + destruct (AliWSSMessage.Event (fst (Unmarshal p)) =? "task-finished")%string.
      * injection H as _ <-. apply Hnil.
      * cbn [app]. now apply (IH u c res c').
    + destruct (messageType =? BinaryMessage)%Z.
      * destruct (writeAudio_general p c) as (k & Hw & Hall & Hh & Hs & Hr).
        destruct (writeAudio p c) as [c1 [writeErr|]]; cbn [fst snd] in *.
        -- injection H as _ <-. exists (firstn k (chunksOf p)).
           repeat split; auto.
           ++ apply chunk_sizes_firstn.
           ++ cbn [app List.concat]. apply bytes_prefix_firstn_chunks.
        -- destruct (IH u c1 res c' H) as (ws & Hw' & Hsz & [tail Hpre] & Hh' & Hs' & Hr').
           exists (chunksOf p ++ ws).
           rewrite Hw', Hw, (Hall eq_refl), <- app_assoc.
           repeat split; try congruence.
           ++ apply Forall_app. split; [|exact Hsz].
              exact (proj1 (proj2 (chunksOf_facts p))).
           ++ exists tail. cbn [app List.concat].
              rewrite concat_app, (proj1 (chunksOf_facts p)), Hpre.
              now rewrite <- app_assoc.
      * cbn [app]. now apply (IH u c res c').
  - destruct (Go.is_EOF err); injection H as _ <-; apply Hnil.
Qed.

Lemma readLoop_shape : forall reads u c res c',
  readLoop errorWrapper Unmarshal reads u c = Some (res, c') ->
  (exists e, res = (Some e, None)) \/ (exists u', res = (None, Some u')).
Proof.
  induction reads as [|r reads IH]; intros u c res c' H; [discriminate|].
  destruct r as [messageType p|err]; cbn [readLoop] in H.
  - destruct (messageType =? TextMessage)%Z.
    + destruct (AliWSSMessage.Event (fst (Unmarshal p)) =? "task-finished")%string.
      * injection H as <- _. right. eauto.
      * now apply (IH u c res c').
    + destruct (messageType =? BinaryMessage)%Z.
      * destruct (writeAudio p c) as [c1 [writeErr|]].
        -- injection H as <- _. left. eauto.
        -- now apply (IH u c1 res c').
      * now apply (IH u c res c').
  - destruct (Go.is_EOF err); injection H as <- _; [right | left]; eauto.
Qed.

Lemma readLoop_extend : forall reads more u c r,
  readLoop errorWrapper Unmarshal reads u c = Some r ->
  readLoop errorWrapper Unmarshal (reads ++ more) u c = Some r.
Proof.
  induction reads as [|x reads IH]; intros more u c r H; [discriminate|].
  destruct x as [messageType p|err]; cbn [readLoop app] in *.
  - destruct (messageType =? TextMessage)%Z.
    + destruct (AliWSSMessage.Event (fst (Unmarshal p)) =? "task-finished")%string;
        [exact H | now apply IH].
    + destruct (messageType =? BinaryMessage)%Z; [|now apply IH].
      destruct (writeAudio p c) as [c1 [writeErr|]]; [exact H | now apply IH].
  - exact H.
Qed.

Lemma readLoop_returns_on_error : forall reads u c err,
  In (ReadErr err) reads ->
  exists r, readLoop errorWrapper Unmarshal reads u c = Some r.
Proof.
  induction reads as [|x reads IH]; intros u c err Hin; [destruct Hin|].
  destruct x as [messageType p|err0]; cbn [readLoop].
  - destruct Hin as [Hx|Hin]; [discriminate|].
    destruct (messageType =? TextMessage)%Z.
    + destruct (AliWSSMessage.Event (fst (Unmarshal p)) =? "task-finished")%string;
        [eauto | now apply (IH u c err)].
    + destruct (messageType =? BinaryMessage)%Z; [|now apply (IH u c err)].
      destruct (writeAudio p c) as [c1 [writeErr|]];
        [eauto | now apply (IH u c1 err)].
  - destruct (Go.is_EOF err0); eauto.
Qed.

End MoreRelayProperties.

(** X17: Whatever the client and the socket do, the writes of a call of the
    relay that returns are appended to what the client held: each write
    carries between 1 and 1024 bytes, and the bytes written, put end to
    end, are a prefix of the bytes of the binary frames read, in order.  So
    audio is never reordered, duplicated or altered, even when the call
    fails half-way. *)
Theorem relay_writes_prefix : forall errorWrapper Unmarshal conn c res c',
  aliTTSHandler errorWrapper Unmarshal conn c = Some (res, c') ->
  exists ws,
    Context.Written c' = Context.Written c ++ ws
    /\ Forall (fun chunk => 1 <= List.length chunk <= 1024) ws
    /\ bytes_prefix (List.concat ws)
         (List.concat (binaryFrames (Conn.Reads conn))).
Proof.
  intros ew U conn c res c' H. unfold aliTTSHandler in H.
  assert (Hnil : exists ws : list (list byte),
             Context.Written c = Context.Written c ++ ws
             /\ Forall (fun chunk => 1 <= List.length chunk <= 1024) ws
             /\ bytes_prefix (List.concat ws)
                  (List.concat (binaryFrames (Conn.Reads conn)))).
  { exists []. rewrite app_nil_r. repeat split; auto. now eexists. }
  destruct (Conn.DialErr conn); [injection H as _ <-; exact Hnil|].
  destruct (Conn.WriteJSONErr conn); [injection H as _ <-; exact Hnil|].
  destruct (readLoop_writes ew U _ _ _ _ _ H) as (ws & Hw & Hsz & Hpre & _).
  exists ws. auto.
Qed.

Lemma relay_writes_prefix_witness :
  aliTTSHandler sample_errorWrapper sample_Unmarshal_WSS full_socket freshContext
    = Some ((None, Some (Usage.mk 0%Z 0%Z 12%Z)),
            accepted (flat_map chunksOf
                        (binaryFrames (firstn 3 (Conn.Reads full_socket))))
              freshContext)
  /\ exists ws,
       Context.Written
         (accepted (flat_map chunksOf
                      (binaryFrames (firstn 3 (Conn.Reads full_socket))))
            freshContext)
       = Context.Written freshContext ++ ws
       /\ Forall (fun chunk => 1 <= List.length chunk <= 1024) ws
       /\ bytes_prefix (List.concat ws)
            (List.concat (binaryFrames (Conn.Reads full_socket))).
Proof.
  assert (Hrun : aliTTSHandler sample_errorWrapper sample_Unmarshal_WSS
                   full_socket freshContext
                 = Some ((None, Some (Usage.mk 0%Z 0%Z 12%Z)),
                         accepted (flat_map chunksOf
                                     (binaryFrames
                                        (firstn 3 (Conn.Reads full_socket))))
                           freshContext))
    by (vm_compute; reflexivity).
  split; [exact Hrun|].
  destruct (relay_writes_prefix sample_errorWrapper sample_Unmarshal_WSS
              full_socket freshContext _ _ Hrun)
    as (ws & Hw & Hsz & Hpre).
  exists ws. auto.
Defined.

(** X18: Every call of the relay that returns gives back an error or a usage,
    never both and never neither. *)
Theorem relay_error_or_usage : forall errorWrapper Unmarshal conn c res c',
  aliTTSHandler errorWrapper Unmarshal conn c = Some (res, c') ->
  (exists e, res = (Some e, None)) \/ (exists u, res = (None, Some u)).
Proof.
  intros ew U conn c res c' H. unfold aliTTSHandler in H.
  destruct (Conn.DialErr conn); [injection H as <- _; left; eauto|].
  destruct (Conn.WriteJSONErr conn); [injection H as <- _; left; eauto|].
  exact (readLoop_shape ew U _ _ _ _ _ H).
Qed.

Lemma relay_error_or_usage_witness :
  aliTTSHandler sample_errorWrapper sample_Unmarshal_WSS one_frame_socket
    goneContext
  = Some ((Some (sample_errorWrapper (Go.other_error "broken pipe")
                   "write_audio_failed" 500%Z), None), goneContext)
  /\ ((exists e,
         (Some (sample_errorWrapper (Go.other_error "broken pipe")
                  "write_audio_failed" 500%Z), @None Usage.t)
         = (Some e, None))
      \/ (exists u,
            (Some (sample_errorWrapper (Go.other_error "broken pipe")
                     "write_audio_failed" 500%Z), @None Usage.t)
            = (None, Some u))).
Proof.
  split; [reflexivity|].
  exact (relay_error_or_usage sample_errorWrapper sample_Unmarshal_WSS
           one_frame_socket goneContext _ goneContext eq_refl).
Defined.

(** X19: Once a call has returned, nothing the socket would have delivered
    afterwards matters: the relay stops reading at the message that ends the
    call. *)
Theorem relay_stops_reading : forall errorWrapper Unmarshal conn c r more,
  aliTTSHandler errorWrapper Unmarshal conn c = Some r ->
  aliTTSHandler errorWrapper Unmarshal (with_more_reads conn more) c = Some r.
Proof.
  intros ew U conn c r more H. unfold aliTTSHandler, with_more_reads in *.
  cbn [Conn.DialErr Conn.WriteJSONErr Conn.Reads].
  destruct (Conn.DialErr conn); [exact H|].
  destruct (Conn.WriteJSONErr conn); [exact H|].
  now apply readLoop_extend.
Qed.

Lemma relay_stops_reading_witness :
  aliTTSHandler sample_errorWrapper sample_Unmarshal_WSS reset_socket
    freshContext
  = Some ((Some (sample_errorWrapper (Go.other_error "connection reset")
                   "wss_read_msg_failed" 500%Z), None),
          Context.mk [] None [["a"%byte; "b"%byte; "c"%byte]] [] None)
  /\ aliTTSHandler sample_errorWrapper sample_Unmarshal_WSS
       (with_more_reads reset_socket (Conn.Reads full_socket)) freshContext
     = Some ((Some (sample_errorWrapper (Go.other_error "connection reset")
                      "wss_read_msg_failed" 500%Z), None),
             Context.mk [] None [["a"%byte; "b"%byte; "c"%byte]] [] None).
Proof.
  assert (Hrun : aliTTSHandler sample_errorWrapper sample_Unmarshal_WSS
                   reset_socket freshContext
                 = Some ((Some (sample_errorWrapper
                                  (Go.other_error "connection reset")
                                  "wss_read_msg_failed" 500%Z), None),
                         Context.mk [] None
                           [["a"%byte; "b"%byte; "c"%byte]] [] None))
    by reflexivity.
  split; [exact Hrun|].
  exact (relay_stops_reading sample_errorWrapper sample_Unmarshal_WSS
           reset_socket freshContext _ (Conn.Reads full_socket) Hrun).
Defined.

(** X20: The relay returns as soon as the socket reports any read error; and,
    once connected, it is still reading as long as the socket has only
    delivered messages other than a completion frame and the client has
    accepted every write. *)
Theorem relay_returns_on_read_error : forall errorWrapper Unmarshal conn c,
  (forall err,
     In (ReadErr err) (Conn.Reads conn) ->
     exists r, aliTTSHandler errorWrapper Unmarshal conn c = Some r)
  /\ (Conn.DialErr conn = None -> Conn.WriteJSONErr conn = None ->
      Context.Failure c = None ->
      Forall (keeps_reading Unmarshal) (Conn.Reads conn) ->
      aliTTSHandler errorWrapper Unmarshal conn c = None).
Proof.
  intros ew U conn c. split.
  - intros err Hin. unfold aliTTSHandler.
    destruct (Conn.DialErr conn); [eauto|].
    destruct (Conn.WriteJSONErr conn); [eauto|].
    now apply (readLoop_returns_on_error ew U _ _ _ err).
  - intros Hdial Hjson Hc Hkeep. unfold aliTTSHandler.
    rewrite Hdial, Hjson.
    rewrite <- (app_nil_r (Conn.Reads conn)).
    now rewrite (readLoop_keeps_reading ew U _ [] _ c Hc Hkeep).
Qed.

(** X21: A read failure other than [io.EOF] ends the call with the
    [wss_read_msg_failed] error and no usage; the audio forwarded before it
    stays written. *)
Theorem relay_read_error_keeps_audio :
  forall errorWrapper Unmarshal conn pre err rest c,
  Conn.DialErr conn = None ->
  Conn.WriteJSONErr conn = None ->
  Conn.Reads conn = pre ++ ReadErr err :: rest ->
  Forall (keeps_reading Unmarshal) pre ->
  Context.Failure c = None ->
  Go.is_EOF err = false ->
  aliTTSHandler errorWrapper Unmarshal conn c
    = Some ((Some (errorWrapper err "wss_read_msg_failed"
                     Go.StatusInternalServerError), None),
            accepted (flat_map chunksOf (binaryFrames pre)) c)
  /\ List.concat (Context.Written
                    (accepted (flat_map chunksOf (binaryFrames pre)) c))
     = List.concat (Context.Written c) ++ List.concat (binaryFrames pre).
Proof.
  intros ew U conn pre err rest c Hdial Hjson Hreads Hpre Hc Herr. split.
  - unfold aliTTSHandler. rewrite Hdial, Hjson, Hreads.
    rewrite (readLoop_keeps_reading ew U pre _ _ c Hc Hpre).
    cbn [readLoop]. now rewrite Herr.
  - unfold accepted. cbn [Context.Written].
    now rewrite concat_app, concat_flat_map_chunksOf.
Qed.

Lemma relay_read_error_keeps_audio_witness :
  Go.is_EOF (Go.other_error "connection reset") = false
  /\ aliTTSHandler sample_errorWrapper sample_Unmarshal_WSS reset_socket
       freshContext
     = Some ((Some (sample_errorWrapper (Go.other_error "connection reset")
                      "wss_read_msg_failed" 500%Z), None),
             accepted (flat_map chunksOf
                         (binaryFrames (firstn 1 (Conn.Reads reset_socket))))
               freshContext).
Proof.
  split; [reflexivity|].
  refine (proj1 (relay_read_error_keeps_audio sample_errorWrapper
                   sample_Unmarshal_WSS reset_socket
                   (firstn 1 (Conn.Reads reset_socket))
                   (Go.other_error "connection reset") [] freshContext
                   eq_refl eq_refl eq_refl _ eq_refl eq_refl)).
  repeat constructor. intros H. discriminate.
Defined.
